(** * address_checker: the point-in-polygon test and the neighborhood lookup

  A shallow embedding of [search2.py] and of the interactive neighborhood
  store of [simple_checker.py].  Python's [float] is IEEE 754
  binary64, which is Rocq's primitive [float]; its operations are specified
  by [SpecFloat] through the axioms of [FloatAxioms].  Python exceptions are
  the [Raise] results of a small error monad. *)

From Stdlib Require Import Floats ZArith PArith Ascii String List Bool Lia.
From Stdlib Require Import Permutation DecimalString.
Import ListNotations.
Open Scope string_scope.
Open Scope list_scope.

(** ** Exceptions and results *)

Inductive exception : Type :=
| ZeroDivisionError
| IndexError
| TypeError
| NameError.

Inductive result (A : Type) : Type :=
| Ok (a : A)
| Raise (e : exception).

Arguments Ok {A} a.
Arguments Raise {A} e.

Definition bind {A B : Type} (c : result A) (k : A -> result B) : result B :=
  match c with
  | Ok a => k a
  | Raise e => Raise e
  end.

Notation "x <- c ;; k" := (bind c (fun x => k))
  (at level 61, c at next level, right associativity).

(** ** Data model: [search2.py], lines 4-12 *)

Record Coordinate : Type := { lat : float; lng : float }.

Record Neighborhood : Type := { name : string; coordinates : list Coordinate }.

(** ** The operations of Python the code uses *)

(** [a > b] on floats. *)
Definition float_gt (a b : float) : bool := (b <? a)%float.

(** [a / b] on floats raises [ZeroDivisionError] when [b == 0.0]. *)
Definition float_truediv (a b : float) : result float :=
  if (b =? 0)%float then Raise ZeroDivisionError else Ok (a / b)%float.

(** [polygon[i]] for an index [0 <= i]. *)
Definition getitem {A : Type} (l : list A) (i : nat) : result A :=
  match nth_error l i with
  | Some a => Ok a
  | None => Raise IndexError
  end.

(** A [for] loop over a list of indices, threading the loop's variables. *)
Fixpoint for_each {S : Type} (body : S -> nat -> result S)
    (range : list nat) (st : S) : result S :=
  match range with
  | [] => Ok st
  | i :: rest => st' <- body st i ;; for_each body rest st'
  end.

(** ** [is_point_in_polygon]: [search2.py], lines 14-44 *)

(** Lines 37-38, with [vi = polygon[i]] and [vj = polygon[j]]: the second
    operand of [and] is evaluated only when the first is true. *)
Definition intersect (point vi vj : Coordinate) : result bool :=
  let xi := lng vi in
  let yi := lat vi in
  let xj := lng vj in
  let yj := lat vj in
  if negb (Bool.eqb (float_gt yi (lat point)) (float_gt yj (lat point))) then
    q <- float_truediv ((xj - xi) * (lat point - yi))%float (yj - yi)%float ;;
    Ok (lng point <? q + xi)%float
  else Ok false.

(** Lines 32-42: one iteration; the state is [(inside, j)]. *)
Definition loop_body (point : Coordinate) (polygon : list Coordinate)
    (st : bool * nat) (i : nat) : result (bool * nat) :=
  let '(inside, j) := st in
  vi <- getitem polygon i ;;
  vj <- getitem polygon j ;;
  b <- intersect point vi vj ;;
  Ok (if b then negb inside else inside, i).

Definition is_point_in_polygon (point : Coordinate)
    (polygon : list Coordinate) : result bool :=
  if (length polygon <? 3)%nat then Ok false
  else
    st <- for_each (loop_body point polygon) (seq 0 (length polygon))
            (false, (length polygon - 1)%nat) ;;
    Ok (fst st).

(** ** [find_neighborhood]: [search2.py], lines 46-60 *)

Fixpoint find_neighborhood (point : Coordinate)
    (neighborhoods : list Neighborhood) : result (option string) :=
  match neighborhoods with
  | [] => Ok None
  | neighborhood :: rest =>
      b <- is_point_in_polygon point (coordinates neighborhood) ;;
      if b then Ok (Some (name neighborhood))
      else find_neighborhood point rest
  end.

(** Lines 62-71.  The [def find_all_neighborhoods] statement is indented
    into the body of [find_neighborhood] and follows its last [return]: this
    is the function the statement would bind if it were ever executed.  The
    list comprehension visits the neighborhoods in order. *)
Fixpoint find_all_neighborhoods (point : Coordinate)
    (neighborhoods : list Neighborhood) : result (list string) :=
  match neighborhoods with
  | [] => Ok []
  | neighborhood :: rest =>
      b <- is_point_in_polygon point (coordinates neighborhood) ;;
      names <- find_all_neighborhoods point rest ;;
      Ok (if b then name neighborhood :: names else names)
  end.

(** ** The names [search2.py] binds

    The block structure of the file, statement by statement: what a block
    binds depends on which of its statements are executed. *)

Unset Elimination Schemes.
Inductive stmt : Type :=
| ImportFrom (ids : list string)
| ClassDef (id : string)
| FunctionDef (id : string) (body : list stmt)
| Docstring
| Assign (id : string)
| If (body : list stmt)
| For (id : string) (body : list stmt)
| Return.
Set Elimination Schemes.

Definition is_point_in_polygon_body : list stmt :=
  [ Docstring;
    If [Return];
    Assign "inside";
    Assign "j";
    For "i" [ Assign "xi"; Assign "yi"; Assign "xj"; Assign "yj";
              Assign "intersect"; If [Assign "inside"]; Assign "j" ];
    Return ].

Definition find_neighborhood_body : list stmt :=
  [ Docstring;
    For "neighborhood" [ If [Return] ];
    Return;
    FunctionDef "find_all_neighborhoods" [ Docstring; Return ] ].

Definition search2_py : list stmt :=
  [ ImportFrom ["List"; "Dict"; "Optional"; "Tuple"; "Union"];
    ImportFrom ["dataclass"];
    ClassDef "Coordinate";
    ClassDef "Neighborhood";
    FunctionDef "is_point_in_polygon" is_point_in_polygon_body;
    FunctionDef "find_neighborhood" find_neighborhood_body ].

(** The statements of a block that control can reach: those up to its first
    unconditional [return]. *)
Fixpoint reachable (block : list stmt) : list stmt :=
  match block with
  | [] => []
  | Return :: _ => [Return]
  | s :: rest => s :: reachable rest
  end.

(** The names a statement can bind in the scope that executes it.  A [def]
    binds the function's name and does not run its body; [if] and [for] open
    no scope, so what their bodies bind is bound in the enclosing one. *)
Fixpoint binds (s : stmt) : list string :=
  let fix block_binds (block : list stmt) : list string :=
    match block with
    | [] => []
    | Return :: _ => []
    | s' :: rest => binds s' ++ block_binds rest
    end in
  match s with
  | ImportFrom ids => ids
  | ClassDef id => [id]
  | FunctionDef id _ => [id]
  | Assign id => [id]
  | If body => block_binds body
  | For id body => id :: block_binds body
  | Docstring | Return => []
  end.

Definition bound_names (block : list stmt) : list string :=
  flat_map binds (reachable block).

(** The module's global names once [search2.py] has been imported. *)
Definition search2_globals : list string := bound_names search2_py.

(** A call of [find_all_neighborhoods] from module scope or from an importing
    module: the name is looked up among the module's globals first. *)
Definition call_find_all_neighborhoods (point : Coordinate)
    (neighborhoods : list Neighborhood) : result (list string) :=
  if existsb (String.eqb "find_all_neighborhoods") search2_globals
  then find_all_neighborhoods point neighborhoods
  else Raise NameError.

(** ** Untyped values: what [Coordinate(...)] accepts

    The annotations [lat: float] and [lng: float] are not checked by the
    [dataclass] decorator.  [pyobj] holds the floats and two kinds of values
    that are not numbers. *)

Inductive pyobj : Type :=
| PyFloat (f : float)
| PyStr (s : string)
| PyNone.

Record CoordinateObj : Type := { obj_lat : pyobj; obj_lng : pyobj }.


Definition py_gt (a b : pyobj) : result bool :=
  match a, b with
  | PyFloat x, PyFloat y => Ok (float_gt x y)
  | PyStr x, PyStr y => Ok (String.ltb y x)
  | _, _ => Raise TypeError
  end.

Definition py_lt (a b : pyobj) : result bool :=
  match a, b with
  | PyFloat x, PyFloat y => Ok (x <? y)%float
  | PyStr x, PyStr y => Ok (String.ltb x y)
  | _, _ => Raise TypeError
  end.

Definition py_sub (a b : pyobj) : result pyobj :=
  match a, b with
  | PyFloat x, PyFloat y => Ok (PyFloat (x - y))
  | _, _ => Raise TypeError
  end.

Definition py_mul (a b : pyobj) : result pyobj :=
  match a, b with
  | PyFloat x, PyFloat y => Ok (PyFloat (x * y))
  | _, _ => Raise TypeError
  end.

Definition py_truediv (a b : pyobj) : result pyobj :=
  match a, b with
  | PyFloat x, PyFloat y => q <- float_truediv x y ;; Ok (PyFloat q)
  | _, _ => Raise TypeError
  end.

Definition py_add (a b : pyobj) : result pyobj :=
  match a, b with
  | PyFloat x, PyFloat y => Ok (PyFloat (x + y))
  | PyStr x, PyStr y => Ok (PyStr (String.append x y))
  | _, _ => Raise TypeError
  end.

(** Lines 37-38 on untyped values, operand by operand in Python's order. *)
Definition intersect_obj (point vi vj : CoordinateObj) : result bool :=
  let xi := obj_lng vi in
  let yi := obj_lat vi in
  let xj := obj_lng vj in
  let yj := obj_lat vj in
  above_i <- py_gt yi (obj_lat point) ;;
  above_j <- py_gt yj (obj_lat point) ;;
  if negb (Bool.eqb above_i above_j) then
    dx <- py_sub xj xi ;;
    dy <- py_sub (obj_lat point) yi ;;
    num <- py_mul dx dy ;;
    den <- py_sub yj yi ;;
    q <- py_truediv num den ;;
    x_intersect <- py_add q xi ;;
    py_lt (obj_lng point) x_intersect
  else Ok false.

Definition loop_body_obj (point : CoordinateObj) (polygon : list CoordinateObj)
    (st : bool * nat) (i : nat) : result (bool * nat) :=
  let '(inside, j) := st in
  vi <- getitem polygon i ;;
  vj <- getitem polygon j ;;
  b <- intersect_obj point vi vj ;;
  Ok (if b then negb inside else inside, i).

Definition is_point_in_polygon_obj (point : CoordinateObj)
    (polygon : list CoordinateObj) : result bool :=
  if (length polygon <? 3)%nat then Ok false
  else
    st <- for_each (loop_body_obj point polygon) (seq 0 (length polygon))
            (false, (length polygon - 1)%nat) ;;
    Ok (fst st).

(** A [Coordinate] whose two fields hold floats, as an untyped object. *)
Definition to_obj (c : Coordinate) : CoordinateObj :=
  {| obj_lat := PyFloat (lat c); obj_lng := PyFloat (lng c) |}.

(** ** The containment test as the specification words it (section 4.2)

    Follows the specification's text, not the code: an edge [(vi, vj)]
    toggles the flag iff it is a candidate crossing and the point's longitude
    is below the interpolated longitude; edge [i] joins vertex [i] to vertex
    [(i - 1) mod n]; the flag starts false and is returned after all edges. *)

Definition origin : Coordinate := {| lat := 0; lng := 0 |}.

Definition candidate_crossing (point vi vj : Coordinate) : bool :=
  negb (Bool.eqb (float_gt (lat vi) (lat point)) (float_gt (lat vj) (lat point))).

Definition x_intersect (point vi vj : Coordinate) : float :=
  ((lng vj - lng vi) * (lat point - lat vi) / (lat vj - lat vi) + lng vi)%float.

Definition toggles (point vi vj : Coordinate) : bool :=
  candidate_crossing point vi vj && (lng point <? x_intersect point vi vj)%float.

Definition spec_contains (point : Coordinate) (polygon : list Coordinate) : bool :=
  let n := length polygon in
  fold_left
    (fun inside i =>
       if toggles point (nth i polygon origin)
                        (nth ((i + n - 1) mod n) polygon origin)
       then negb inside else inside)
    (seq 0 n) false.

(** ** Edges of the closed ring *)

(** The pairs [(vi, vj)] the loop visits when it starts with [vj = prev]. *)
Fixpoint edges_from (prev : Coordinate) (polygon : list Coordinate)
    : list (Coordinate * Coordinate) :=
  match polygon with
  | [] => []
  | v :: rest => (v, prev) :: edges_from v rest
  end.

Definition edges (polygon : list Coordinate) : list (Coordinate * Coordinate) :=
  edges_from (last polygon origin) polygon.

(** The number of toggling edges, modulo 2. *)
Definition parity (point : Coordinate) (es : list (Coordinate * Coordinate)) : bool :=
  fold_right xorb false (map (fun e => toggles point (fst e) (snd e)) es).

(** The value the test returns, as a total function. *)
Definition contains (point : Coordinate) (polygon : list Coordinate) : bool :=
  (3 <=? length polygon)%nat && parity point (edges polygon).

(** Cyclic rotation: start the ring at vertex [k]. *)
Definition rotate (k : nat) (polygon : list Coordinate) : list Coordinate :=
  skipn k polygon ++ firstn k polygon.

(** Closing the ring: repeat the first vertex at the end. *)
Definition close_ring (polygon : list Coordinate) : list Coordinate :=
  polygon ++ firstn 1 polygon.

(** Every edge of the ring gives the same verdict in both directions. *)
Definition direction_independent (point : Coordinate)
    (polygon : list Coordinate) : bool :=
  forallb (fun e => Bool.eqb (toggles point (fst e) (snd e))
                             (toggles point (snd e) (fst e)))
          (edges polygon).

(** The open path through a list of vertices: each vertex paired with the
    one before it. *)
Definition path (vertices : list Coordinate) : list (Coordinate * Coordinate) :=
  match vertices with
  | [] => []
  | first :: rest => edges_from first rest
  end.

Definition swap (e : Coordinate * Coordinate) : Coordinate * Coordinate :=
  (snd e, fst e).

(** ** Example data *)

Definition pt (latitude longitude : float) : Coordinate :=
  {| lat := latitude; lng := longitude |}.

(** The unit square of the specification's section 8. *)
Definition unit_square : list Coordinate :=
  [pt 0 0; pt 0 1; pt 1 1; pt 1 0].

Definition big_square : list Coordinate :=
  [pt (-2) (-2); pt (-2) 2; pt 2 2; pt 2 (-2)].

(** A triangle with an edge from [(0, 0)] to [(3, 1)], and the point of that
    edge at latitude 1, whose longitude is [1/3] rounded to binary64. *)
Definition triangle : list Coordinate := [pt 0 0; pt 3 1; pt 3 (-5)].

Definition on_edge : Coordinate := pt 1 (1 / 3).

(** ** [find_neighborhood] on untyped values

    [neighborhood.coordinates] is a list of [Coordinate] objects whose fields
    may hold anything, [neighborhood.name] is returned as it is. *)

Record NeighborhoodObj : Type :=
  { obj_name : pyobj; obj_coordinates : list CoordinateObj }.

Fixpoint find_neighborhood_obj (point : CoordinateObj)
    (neighborhoods : list NeighborhoodObj) : result (option pyobj) :=
  match neighborhoods with
  | [] => Ok None
  | neighborhood :: rest =>
      b <- is_point_in_polygon_obj point (obj_coordinates neighborhood) ;;
      if b then Ok (Some (obj_name neighborhood))
      else find_neighborhood_obj point rest
  end.

(** ** [simple_checker.py]: the interactive neighborhood store

    The terminal and the file [neighborhoods.json] are an explicit [world]:
    the lines still to be typed, what has been written to the terminal, and
    the parsed content of the file (absent, or the list under the key
    ["neighborhoods"]).  [str.lower], [str.strip], [float] and [int] are
    Python's: they are taken as given, [None] standing for a [ValueError]. *)

Module SimpleChecker.

Record Builtins : Type :=
  { str_lower : string -> string;
    str_strip : string -> string;
    float_of_str : string -> option float;
    int_of_str : string -> option Z }.

(** What the terminal receives: the prompt of an [input] call, or a line
    written by [print]. *)
Inductive output : Type :=
| Prompt (text : string)
| Line (text : string).

(** An entry of the file: [{"name": ..., "coordinates": [[lat, lng], ...]}]. *)
Record saved : Type :=
  { saved_name : string; saved_coordinates : list (float * float) }.

Record world : Type :=
  { stdin : list string; stdout : list output; file : option (list saved) }.

(** The only exception that leaves these functions: [input] at end of input. *)
Inductive error : Type :=
| EOFError.

Inductive outcome (A : Type) : Type :=
| Returned (a : A)
| Raised (e : error).

Arguments Returned {A} a.
Arguments Raised {A} e.

Local Infix "+++" := String.append (at level 60, right associativity).

Definition nl : string := String (Ascii.ascii_of_nat 10) EmptyString.

Definition print (text : string) (w : world) : world :=
  {| stdin := stdin w; stdout := stdout w ++ [Line text]; file := file w |}.

(** [input(prompt)]: the prompt is written, then a line is read. *)
Definition input (prompt : string) (w : world) : option string * world :=
  match stdin w with
  | [] =>
      (None, {| stdin := []; stdout := stdout w ++ [Prompt prompt];
                file := file w |})
  | line :: rest =>
      (Some line, {| stdin := rest; stdout := stdout w ++ [Prompt prompt];
                     file := file w |})
  end.

(** [s.split(',')]. *)
Fixpoint split_comma (s : string) : list string :=
  match s with
  | EmptyString => [EmptyString]
  | String c rest =>
      if Ascii.eqb c ","%char then EmptyString :: split_comma rest
      else match split_comma rest with
           | [] => [String c EmptyString]
           | field :: fields => String c field :: fields
           end
  end.

(** [str(idx)] for a natural number. *)
Definition decimal (idx : nat) : string :=
  NilZero.string_of_uint (Nat.to_uint idx).

(** [for idx, n in enumerate(neighborhoods, start): print(f"{idx}. {n['name']}")]. *)
Fixpoint print_numbered (idx : nat) (neighborhoods : list saved)
    (out : list output) : list output :=
  match neighborhoods with
  | [] => out
  | n :: rest =>
      print_numbered (S idx) rest
        (out ++ [Line (decimal idx +++ ". " +++ saved_name n)])
  end.

(** *** [create_neighborhood], lines 12-60 *)

(** [lat, lng = map(float, fields)]: every way this fails is a [ValueError]
    (a field that is not a float, fewer or more than two fields). *)
Definition unpack_pair (fields : list (option float)) : option (float * float) :=
  match fields with
  | [Some lat; Some lng] => Some (lat, lng)
  | _ => None
  end.

(** Lines 21-34: the loop, one typed line per iteration. *)
Fixpoint read_polygon (py : Builtins) (polygon_coords : list (float * float))
    (inputs : list string) (out : list output)
    : outcome (list (float * float)) * list string * list output :=
  let out := out ++ [Prompt "Enter coordinate (lat,lng) or 'done': "] in
  match inputs with
  | [] => (Raised EOFError, [], out)
  | user_input :: rest =>
      if String.eqb (str_lower py user_input) "done" then
        if (length polygon_coords <? 3)%nat then
          read_polygon py polygon_coords rest
            (out ++ [Line "A neighborhood needs at least 3 points!"])
        else (Returned polygon_coords, rest, out)
      else
        match unpack_pair (map (float_of_str py) (split_comma user_input)) with
        | Some coord => read_polygon py (polygon_coords ++ [coord]) rest out
        | None =>
            read_polygon py polygon_coords rest
              (out ++ [Line "Invalid format! Please use 'latitude,longitude' format"])
        end
  end.

(** [a != b] for two lists [[lat, lng]] built from separate [float] calls. *)
Definition coord_ne (a b : float * float) : bool :=
  negb ((fst a =? fst b)%float && (snd a =? snd b)%float).

(** Lines 36-38.  The list is not empty here: the loop leaves with at least
    three points. *)
Definition close_polygon (polygon_coords : list (float * float))
    : list (float * float) :=
  match polygon_coords with
  | [] => []
  | first :: _ =>
      if coord_ne first (last polygon_coords first)
      then polygon_coords ++ [first]
      else polygon_coords
  end.

Definition create_neighborhood (py : Builtins) (w : world)
    : outcome unit * world :=
  match input "Enter neighborhood name: " w with
  | (None, w1) => (Raised EOFError, w1)
  | (Some typed, w1) =>
      let name := str_strip py typed in
      let w2 :=
        print "Example: 32.0853,34.7818"
          (print (nl +++ "Enter coordinates for " +++ name
                  +++ " (lat,lng format). Enter 'done' when finished:") w1) in
      match read_polygon py [] (stdin w2) (stdout w2) with
      | (Raised e, inputs, out) =>
          (Raised e, {| stdin := inputs; stdout := out; file := file w2 |})
      | (Returned polygon_coords, inputs, out) =>
          let neighborhood_data :=
            {| saved_name := name;
               saved_coordinates := close_polygon polygon_coords |} in
          let neighborhoods :=
            match file w2 with
            | Some existing => existing
            | None => []
            end in
          (Returned tt,
           print (nl +++ "Neighborhood '" +++ name +++ "' has been saved!")
             {| stdin := inputs; stdout := out;
                file := Some (neighborhoods ++ [neighborhood_data]) |})
      end
  end.

(** *** [delete_neighborhood], lines 62-108 *)

(** [neighborhoods.pop(idx)] for [0 <= idx < len(neighborhoods)]. *)
Definition pop {A : Type} (l : list A) (idx : nat) : list A :=
  firstn idx l ++ skipn (S idx) l.

(** Lines 83-108.  The result is the list written to the file, or [None]
    when the deletion is cancelled and nothing is written. *)
Fixpoint delete_loop (py : Builtins) (neighborhoods : list saved)
    (inputs : list string) (out : list output)
    : outcome (option (list saved)) * list string * list output :=
  let out :=
    out ++ [Prompt (nl +++ "Enter the number of the neighborhood to delete (or 'cancel'): ")] in
  match inputs with
  | [] => (Raised EOFError, [], out)
  | choice :: rest =>
      if String.eqb (str_lower py choice) "cancel" then
        (Returned None, rest, out ++ [Line "Deletion cancelled."])
      else
        match int_of_str py choice with
        | None =>
            delete_loop py neighborhoods rest
              (out ++ [Line "Please enter a valid number or 'cancel'"])
        | Some number =>
            let idx := (number - 1)%Z in
            if ((0 <=? idx)%Z && (idx <? Z.of_nat (length neighborhoods))%Z)%bool
            then
              let deleted_name :=
                match nth_error neighborhoods (Z.to_nat idx) with
                | Some deleted => saved_name deleted
                | None => EmptyString (* not reached: [idx] is in range *)
                end in
              (Returned (Some (pop neighborhoods (Z.to_nat idx))), rest,
               out ++ [Line (nl +++ "Neighborhood '" +++ deleted_name
                             +++ "' has been deleted!")])
            else
              delete_loop py neighborhoods rest
                (out ++ [Line "Invalid number! Please try again."])
        end
  end.

Definition delete_neighborhood (py : Builtins) (w : world)
    : outcome unit * world :=
  match file w with
  | None => (Returned tt, print "No saved neighborhoods to delete!" w)
  | Some [] => (Returned tt, print "No neighborhoods to delete!" w)
  | Some neighborhoods =>
      let out :=
        print_numbered 1 neighborhoods
          (stdout w ++ [Line (nl +++ "Available neighborhoods:")]) in
      match delete_loop py neighborhoods (stdin w) out with
      | (Raised e, inputs, out') =>
          (Raised e, {| stdin := inputs; stdout := out'; file := file w |})
      | (Returned None, inputs, out') =>
          (Returned tt, {| stdin := inputs; stdout := out'; file := file w |})
      | (Returned (Some remaining), inputs, out') =>
          (Returned tt,
           {| stdin := inputs; stdout := out'; file := Some remaining |})
      end
  end.

(** *** [list_neighborhoods], lines 110-123 *)

Definition list_neighborhoods (w : world) : list saved * world :=
  match file w with
  | None => ([], print "No saved neighborhoods!" w)
  | Some neighborhoods =>
      (neighborhoods,
       {| stdin := stdin w;
          stdout := print_numbered 1 neighborhoods
                      (stdout w ++ [Line (nl +++ "Available neighborhoods:")]);
          file := file w |})
  end.

(** *** [select_neighborhoods], lines 125-149 *)

(** [l[i]] for a Python integer: a negative index counts from the end, and
    [None] is an [IndexError]. *)
Definition py_index {A : Type} (l : list A) (i : Z) : option A :=
  let n := Z.of_nat (length l) in
  if ((0 <=? i)%Z && (i <? n)%Z)%bool then nth_error l (Z.to_nat i)
  else if ((- n <=? i)%Z && (i <? 0)%Z)%bool then nth_error l (Z.to_nat (n + i))
  else None.

(** A list comprehension whose element expression may raise. *)
Fixpoint all_or_none {A : Type} (l : list (option A)) : option (list A) :=
  match l with
  | [] => Some []
  | None :: _ => None
  | Some a :: rest =>
      match all_or_none rest with
      | Some rest' => Some (a :: rest')
      | None => None
      end
  end.

(** Lines 141-146; [None] is the [ValueError] or [IndexError] that line 147
    catches. *)
Definition selected_by (py : Builtins) (all_neighborhoods : list saved)
    (choice : string) : option (list saved) :=
  match all_or_none (map (fun x => int_of_str py (str_strip py x))
                         (split_comma choice)) with
  | None => None
  | Some selected_idx =>
      all_or_none (map (fun i => py_index all_neighborhoods (i - 1)%Z)
                       selected_idx)
  end.

(** Lines 135-149. *)
Fixpoint select_loop (py : Builtins) (all_neighborhoods : list saved)
    (inputs : list string) (out : list output)
    : outcome (list saved) * list string * list output :=
  let out := out ++ [Prompt "Choice: "] in
  match inputs with
  | [] => (Raised EOFError, [], out)
  | typed :: rest =>
      let choice := str_strip py typed in
      if String.eqb (str_lower py choice) "all" then
        (Returned all_neighborhoods, rest, out)
      else
        match selected_by py all_neighborhoods choice with
        | Some selected => (Returned selected, rest, out)
        | None =>
            select_loop py all_neighborhoods rest
              (out ++ [Line "Invalid choice! Please try again"])
        end
  end.

Definition select_neighborhoods (py : Builtins) (w : world)
    : outcome (list saved) * world :=
  match list_neighborhoods w with
  | ([], w1) => (Returned [], w1)
  | (all_neighborhoods, w1) =>
      let w2 :=
        print "Or type 'all' to check all neighborhoods"
          (print "Example: 1,3,4"
             (print (nl +++ "Enter neighborhood numbers to check (separate with commas)")
                w1)) in
      match select_loop py all_neighborhoods (stdin w2) (stdout w2) with
      | (result, inputs, out) =>
          (result, {| stdin := inputs; stdout := out; file := file w2 |})
      end
  end.

End SimpleChecker.

(** Builtins for the examples: input that is already stripped and in lower
    case, and the few numbers the examples type. *)
Definition example_py : SimpleChecker.Builtins :=
  {| SimpleChecker.str_lower := fun s => s;
     SimpleChecker.str_strip := fun s => s;
     SimpleChecker.float_of_str := fun s =>
       if String.eqb s "0" then Some 0%float
       else if String.eqb s "1" then Some 1%float
       else None;
     SimpleChecker.int_of_str := fun s =>
       if String.eqb s "0" then Some 0%Z
       else if String.eqb s "1" then Some 1%Z
       else if String.eqb s "2" then Some 2%Z
       else if String.eqb s "3" then Some 3%Z
       else None |}.

Definition example_store : list SimpleChecker.saved :=
  [ {| SimpleChecker.saved_name := "north";
       SimpleChecker.saved_coordinates := [(0, 0); (0, 1); (1, 1); (0, 0)]%float |};
    {| SimpleChecker.saved_name := "south";
       SimpleChecker.saved_coordinates := [(1, 0); (1, 1); (0, 1); (1, 0)]%float |} ].

(** *** Lines as the loops of [simple_checker.py] classify them *)


(** A line the deletion loop answers with a message and another prompt. *)
Definition rejected_number (py : SimpleChecker.Builtins) (n : nat)
    (line : string) : Prop :=
  String.eqb (SimpleChecker.str_lower py line) "cancel" = false /\
  match SimpleChecker.int_of_str py line with
  | None => True
  | Some number => ~ (1 <= number <= Z.of_nat n)%Z
  end.

(** A line the selection loop answers with "Invalid choice!". *)
Definition rejected_choice (py : SimpleChecker.Builtins)
    (all_neighborhoods : list SimpleChecker.saved) (typed : string) : Prop :=
  String.eqb (SimpleChecker.str_lower py (SimpleChecker.str_strip py typed))
             "all" = false /\
  SimpleChecker.selected_by py all_neighborhoods
    (SimpleChecker.str_strip py typed) = None.

(** ** Facts about binary64 arithmetic that the code relies on *)

Module Binary64.

Section Rounding.
Variables prec emax : Z.
Hypothesis prec_pos : (0 < prec)%Z.

Local Open Scope Z_scope.

Local Notation "'emin'" := (SpecFloat.emin prec emax).
Local Notation "'fexp'" := (SpecFloat.fexp prec emax).

Lemma fexp_ge_emin e : emin <= fexp e.
Proof. unfold SpecFloat.fexp. lia. Qed.

Lemma shr_1_digits mrs :
  0 <= shr_m mrs ->
  0 <= shr_m (shr_1 mrs) /\
  Zdigits2 (shr_m (shr_1 mrs)) = Z.max 0 (Zdigits2 (shr_m mrs) - 1).
Proof.
  destruct mrs as [m r s]; cbn [shr_m].
  destruct m as [|[p|p|]|p]; cbn [shr_1 shr_m Zdigits2 digits2_pos];
    intros H; split; lia.
Qed.

Lemma iter_shr_1_digits p : forall mrs,
  0 <= shr_m mrs ->
  0 <= shr_m (SpecFloat.iter_pos shr_1 p mrs) /\
  Zdigits2 (shr_m (SpecFloat.iter_pos shr_1 p mrs)) =
    Z.max 0 (Zdigits2 (shr_m mrs) - Zpos p).
Proof.
  induction p as [p IH|p IH|]; intros mrs H; simpl.
  - destruct (shr_1_digits mrs H) as [H1 D1].
    destruct (IH _ H1) as [H2 D2].
    destruct (IH _ H2) as [H3 D3].
    split; [assumption|]. rewrite D3, D2, D1. lia.
  - destruct (IH _ H) as [H2 D2].
    destruct (IH _ H2) as [H3 D3].
    split; [assumption|]. rewrite D3, D2. lia.
  - destruct (shr_1_digits mrs H) as [H1 D1]. split; [assumption|].
    rewrite D1. lia.
Qed.

Lemma Zdigits2_pos m : 0 <= m -> (0 < Zdigits2 m <-> 0 < m).
Proof. destruct m; simpl; lia. Qed.

Lemma shr_m_of_loc m l : shr_m (shr_record_of_loc m l) = m.
Proof. destruct l as [|[]]; reflexivity. Qed.

(** Shifting a positive mantissa to its canonical exponent never shifts
    every bit out, as long as the exponent is at least [emin]. *)
Lemma shr_fexp_pos m e l :
  0 < m -> emin <= e ->
  0 < shr_m (fst (shr_fexp prec emax m e l)) /\
  emin <= snd (shr_fexp prec emax m e l).
Proof.
  intros Hm He. unfold shr_fexp, shr.
  assert (HD : 0 < Zdigits2 m) by (apply Zdigits2_pos; lia).
  destruct (fexp (Zdigits2 m + e) - e) as [|p|p] eqn:En; simpl;
    rewrite ?shr_m_of_loc; try (split; lia).
  destruct (iter_shr_1_digits p (shr_record_of_loc m l)) as [H1 D1].
  { rewrite shr_m_of_loc. lia. }
  rewrite shr_m_of_loc in D1. split.
  - apply Zdigits2_pos; [assumption|]. rewrite D1.
    unfold SpecFloat.fexp in En. lia.
  - lia.
Qed.

Lemma round_nearest_even_pos m l : 0 < m -> 0 < round_nearest_even m l.
Proof.
  intros Hm. destruct l as [|[]]; simpl; try lia.
  destruct (Z.even m); lia.
Qed.

Lemma binary_round_aux_nonzero s m e l s' :
  0 < m -> emin <= e ->
  binary_round_aux prec emax s m e l <> S754_zero s'.
Proof.
  intros Hm He. unfold binary_round_aux.
  pose proof (shr_fexp_pos _ _ l Hm He) as [H1 E1].
  destruct (shr_fexp prec emax m e l) as [mrs1 e1]. simpl in H1, E1.
  pose proof (round_nearest_even_pos _ (loc_of_shr_record mrs1) H1) as Hr.
  pose proof (shr_fexp_pos _ _ loc_Exact Hr E1) as [H2 _].
  destruct (shr_fexp prec emax _ e1 loc_Exact) as [mrs2 e2]. simpl in H2.
  destruct (shr_m mrs2); try lia.
  destruct (e2 <=? emax - prec); discriminate.
Qed.

Lemma shl_align_exp mx ex ex' :
  emin <= ex -> emin <= ex' -> emin <= snd (shl_align mx ex ex').
Proof.
  intros. unfold shl_align. destruct (ex' - ex); simpl; lia.
Qed.

Lemma binary_round_nonzero s m e s' :
  emin <= e -> binary_round prec emax s m e <> S754_zero s'.
Proof.
  intros He. unfold binary_round.
  pose proof (@shl_align_exp m e (fexp (Zpos (digits2_pos m) + e)) He
                (fexp_ge_emin _)) as Hz.
  destruct (shl_align m e _) as [mz ez]. simpl in Hz.
  apply binary_round_aux_nonzero; lia.
Qed.

Lemma binary_normalize_nonzero m e sz s' :
  m <> 0 -> emin <= e -> binary_normalize prec emax m e sz <> S754_zero s'.
Proof.
  intros Hm He. destruct m; simpl; [congruence| |];
    now apply binary_round_nonzero.
Qed.

(** *** Aligned mantissas of canonical numbers *)

Lemma digits2_pos_iter_xO d : forall m,
  Zpos (digits2_pos (Pos.iter xO m d)) = Zpos (digits2_pos m) + Zpos d.
Proof.
  induction d as [|d IH] using Pos.peano_ind; intros m.
  - simpl. lia.
  - rewrite Pos.iter_succ. simpl. rewrite Pos2Z.inj_succ, IH. lia.
Qed.

Lemma digits_shl_align mx ex ex' :
  ex' <= ex ->
  Zpos (digits2_pos (fst (shl_align mx ex ex'))) =
    Zpos (digits2_pos mx) + (ex - ex').
Proof.
  intros H. unfold shl_align.
  destruct (ex' - ex) as [|p|p] eqn:E; cbn [fst]; try lia.
  rewrite digits2_pos_iter_xO. lia.
Qed.

Lemma canonical_exp m e :
  canonical_mantissa prec emax m e = true ->
  fexp (Zpos (digits2_pos m) + e) = e.
Proof. unfold canonical_mantissa. apply Z.eqb_eq. Qed.

Lemma valid_finite s m e :
  SpecFloat.valid_binary prec emax (S754_finite s m e) = true ->
  fexp (Zpos (digits2_pos m) + e) = e /\ emin <= e.
Proof.
  simpl. unfold bounded. intros H. apply andb_prop in H as [H _].
  apply canonical_exp in H. split; [assumption|].
  rewrite <- H. apply fexp_ge_emin.
Qed.

(** Two canonical numbers of the same sign whose aligned mantissas agree
    are the same number. *)
Lemma aligned_eq mx ex my ey :
  fexp (Zpos (digits2_pos mx) + ex) = ex ->
  fexp (Zpos (digits2_pos my) + ey) = ey ->
  fst (shl_align mx ex (Z.min ex ey)) = fst (shl_align my ey (Z.min ex ey)) ->
  ex = ey /\ mx = my.
Proof.
  intros Cx Cy H.
  assert (Dx := @digits_shl_align mx ex (Z.min ex ey) ltac:(lia)).
  assert (Dy := @digits_shl_align my ey (Z.min ex ey) ltac:(lia)).
  rewrite H in Dx. rewrite Dx in Dy.
  assert (E : Zpos (digits2_pos mx) + ex = Zpos (digits2_pos my) + ey) by lia.
  rewrite E in Cx. assert (ex = ey) by congruence. subst ey.
  split; [reflexivity|].
  rewrite Z.min_id in H. unfold shl_align in H.
  rewrite Z.sub_diag in H. exact H.
Qed.

(** A difference that rounds to zero is the difference of two numbers that
    compare equal: there is no underflow to zero in a subtraction. *)
Lemma SFsub_zero x y s :
  SpecFloat.valid_binary prec emax x = true -> SpecFloat.valid_binary prec emax y = true ->
  SFsub prec emax x y = S754_zero s -> SFcompare x y = Some Eq.
Proof.
  intros Vx Vy.
  destruct x as [sx|sx| |sx mx ex], y as [sy|sy| |sy my ey]; simpl;
    try discriminate; try reflexivity.
  - destruct sx, sy; discriminate.
  - destruct (valid_finite _ _ _ Vx) as [Cx Ex].
    destruct (valid_finite _ _ _ Vy) as [Cy Ey].
    intros H.
    destruct (Z.eq_dec
      (cond_Zopp sx (Zpos (fst (shl_align mx ex (Z.min ex ey)))) -
       cond_Zopp sy (Zpos (fst (shl_align my ey (Z.min ex ey))))) 0)
      as [D|D].
    + assert (sx = sy /\ fst (shl_align mx ex (Z.min ex ey)) =
                         fst (shl_align my ey (Z.min ex ey))) as [-> A].
      { destruct sx, sy; unfold cond_Zopp in D;
          (split; [reflexivity|lia]) || (exfalso; lia). }
      destruct (aligned_eq _ _ _ _ Cx Cy A) as [-> ->].
      rewrite Z.compare_refl, Pos.compare_cont_refl.
      destruct sy; reflexivity.
    + exfalso. revert H. apply binary_normalize_nonzero; [assumption|lia].
Qed.
End Rounding.

(** *** The order on [spec_float] *)

Lemma SFcompare_eq_inv x y :
  SFcompare x y = Some Eq ->
  x = y \/ exists s s', x = S754_zero s /\ y = S754_zero s'.
Proof.
  intros H.
  destruct x as [sx|sx| |sx mx ex], y as [sy|sy| |sy my ey]; simpl in H;
    try discriminate H;
    try (destruct sx; discriminate H); try (destruct sy; discriminate H).
  - right; eauto.
  - left. destruct sx, sy; try discriminate H; reflexivity.
  - left.
    assert (sx = sy /\ ex = ey /\ mx = my) as (-> & -> & ->);
      [|reflexivity].
    destruct sx, sy; try discriminate H;
      destruct (Z.compare_spec ex ey); try discriminate H;
      change (Pos.compare_cont Eq mx my) with (Pos.compare mx my) in H;
      destruct (Pos.compare_spec mx my); try discriminate H; auto.
Qed.

Lemma SFcompare_eq_ltb x y l :
  SFcompare x y = Some Eq -> SFltb l x = SFltb l y.
Proof.
  intros H. destruct (SFcompare_eq_inv _ _ H) as [->|(s & s' & -> & ->)].
  - reflexivity.
  - destruct l as [?|?| |? ? ?]; reflexivity.
Qed.

Lemma SFeqb_zero z : SFeqb z (S754_zero false) = true -> exists s, z = S754_zero s.
Proof.
  unfold SFeqb. destruct z as [s|s| |s m e]; simpl; try discriminate.
  - eauto.
  - destruct s; discriminate.
  - destruct s; discriminate.
Qed.

End Binary64.

Module Float.

Lemma prec_pos : (0 < prec)%Z.
Proof. reflexivity. Qed.

(** [a - b] is a zero only when [a] and [b] compare equal, and then no third
    number lies strictly below one and not below the other. *)
Lemma sub_zero_ltb (a b l : float) :
  (a - b =? 0)%float = true -> (l <? a)%float = (l <? b)%float.
Proof.
  rewrite FloatAxioms.eqb_spec, sub_spec, !FloatAxioms.ltb_spec.
  change (Prim2SF 0) with (S754_zero false). intros H.
  apply Binary64.SFeqb_zero in H as [s H].
  apply Binary64.SFcompare_eq_ltb.
  eapply Binary64.SFsub_zero;
    [exact prec_pos | apply Prim2SF_valid | apply Prim2SF_valid | exact H].
Qed.

Lemma eqb_ltb (a b l : float) :
  (a =? b)%float = true -> (l <? a)%float = (l <? b)%float.
Proof.
  rewrite FloatAxioms.eqb_spec, !FloatAxioms.ltb_spec. unfold SFeqb. intros H.
  apply Binary64.SFcompare_eq_ltb.
  destruct (SFcompare (Prim2SF a) (Prim2SF b)) as [[| |]|];
    try discriminate H; reflexivity.
Qed.

Lemma SFcompare_antisym x y :
  SFcompare y x = option_map CompOpp (SFcompare x y).
Proof.
  destruct x as [sx|sx| |sx mx ex], y as [sy|sy| |sy my ey]; simpl;
    try reflexivity;
    try (destruct sx; reflexivity); try (destruct sy; reflexivity).
  - destruct sx, sy; reflexivity.
  - rewrite (Z.compare_antisym ex ey).
    change (Pos.compare_cont Eq my mx) with (Pos.compare my mx).
    change (Pos.compare_cont Eq mx my) with (Pos.compare mx my).
    rewrite (Pos.compare_antisym mx my).
    destruct sx, sy; try reflexivity;
      destruct (ex ?= ey)%Z; simpl; try reflexivity;
      destruct (mx ?= my)%positive; reflexivity.
Qed.

Lemma leb_not_ltb (a b : float) :
  (a <=? b)%float = true -> (b <? a)%float = false.
Proof.
  rewrite FloatAxioms.leb_spec, FloatAxioms.ltb_spec. unfold SFleb, SFltb.
  rewrite (SFcompare_antisym (Prim2SF a) (Prim2SF b)).
  destruct (SFcompare (Prim2SF a) (Prim2SF b)) as [[| |]|]; simpl;
    intros H; try discriminate H; reflexivity.
Qed.

End Float.


(** ** The crossing test never divides by zero *)

Lemma candidate_nonzero point vi vj :
  candidate_crossing point vi vj = true ->
  (lat vj - lat vi =? 0)%float = false.
Proof.
  unfold candidate_crossing, float_gt. intros C.
  destruct (lat vj - lat vi =? 0)%float eqn:Z; [|reflexivity].
  rewrite (Float.sub_zero_ltb _ _ (lat point) Z), eqb_reflx in C.
  discriminate C.
Qed.

Lemma intersect_toggles point vi vj :
  intersect point vi vj = Ok (toggles point vi vj).
Proof.
  unfold intersect, toggles, x_intersect.
  fold (candidate_crossing point vi vj).
  destruct (candidate_crossing point vi vj) eqn:C; [|reflexivity].
  unfold float_truediv. rewrite (candidate_nonzero _ _ _ C). reflexivity.
Qed.

(** ** The loop computes the parity of the toggling edges *)

Lemma xorb_toggle (b inside rest : bool) :
  xorb (if b then negb inside else inside) rest = xorb inside (xorb b rest).
Proof. destruct b, inside, rest; reflexivity. Qed.

Lemma getitem_middle {A : Type} (pre suf : list A) (v : A) :
  getitem (pre ++ v :: suf) (length pre) = Ok v.
Proof.
  unfold getitem. rewrite nth_error_app2, Nat.sub_diag by lia. reflexivity.
Qed.

Lemma loop_parity point polygon : forall suf pre inside j prev,
  polygon = pre ++ suf ->
  getitem polygon j = Ok prev ->
  exists j',
    for_each (loop_body point polygon) (seq (length pre) (length suf)) (inside, j)
    = Ok (xorb inside (parity point (edges_from prev suf)), j').
Proof.
  induction suf as [|v rest IH]; intros pre inside j prev E Hj.
  - exists j. simpl. now rewrite xorb_false_r.
  - assert (Hv : getitem polygon (length pre) = Ok v)
      by (rewrite E; apply getitem_middle).
    assert (Hb : loop_body point polygon (inside, j) (length pre)
                 = Ok (if toggles point v prev then negb inside else inside,
                       length pre)).
    { unfold loop_body. rewrite Hv, Hj. cbn [bind].
      rewrite intersect_toggles. reflexivity. }
    cbn [length seq for_each]. rewrite Hb. cbn [bind].
    destruct (IH (pre ++ [v])
                (if toggles point v prev then negb inside else inside)
                (length pre) v) as [j' Hj'].
    + rewrite E, <- app_assoc. reflexivity.
    + exact Hv.
    + exists j'. rewrite length_app, Nat.add_1_r in Hj'. rewrite Hj'.
      unfold parity. cbn [edges_from map fold_right fst snd].
      now rewrite xorb_toggle.
Qed.

Lemma getitem_last {A : Type} (l : list A) (d : A) :
  l <> [] -> getitem l (length l - 1) = Ok (last l d).
Proof.
  intros H. destruct (exists_last H) as (l' & a & ->).
  rewrite last_last, length_app, Nat.add_sub. apply getitem_middle.
Qed.

Lemma contains_parity point polygon :
  3 <= length polygon ->
  is_point_in_polygon point polygon = Ok (parity point (edges polygon)).
Proof.
  intros H. unfold is_point_in_polygon.
  destruct (Nat.ltb_spec (length polygon) 3) as [?|_]; [lia|].
  destruct (@loop_parity point polygon polygon [] false (length polygon - 1)
              (last polygon origin) eq_refl) as [j' Hj'].
  - apply getitem_last. intros ->. simpl in H. lia.
  - simpl length in Hj'. rewrite Hj'. reflexivity.
Qed.

Lemma is_point_in_polygon_contains point polygon :
  is_point_in_polygon point polygon = Ok (contains point polygon).
Proof.
  unfold contains. destruct (Nat.leb_spec 3 (length polygon)) as [H|H].
  - now rewrite contains_parity.
  - unfold is_point_in_polygon.
    destruct (Nat.ltb_spec (length polygon) 3) as [_|?]; [reflexivity|lia].
Qed.

(** ** The code against the specification's wording of the algorithm *)

Lemma nth_last_vertex (l : list Coordinate) :
  l <> [] -> nth (length l - 1) l origin = last l origin.
Proof.
  intros H. destruct (exists_last H) as (l' & a & ->).
  rewrite last_last, length_app, Nat.add_sub. apply nth_middle.
Qed.

(** Vertex [(i - 1) mod n] is the vertex listed before vertex [i], and the
    last vertex when [i = 0]. *)
Lemma previous_vertex polygon pre v rest :
  polygon = pre ++ v :: rest ->
  nth ((length pre + length polygon - 1) mod length polygon) polygon origin
  = last pre (last polygon origin).
Proof.
  intros E.
  assert (Hn : length polygon = length pre + S (length rest))
    by (rewrite E, length_app; reflexivity).
  destruct pre as [|u pre0] using rev_ind.
  - cbn [length last Nat.add]. rewrite Nat.mod_small by lia.
    apply nth_last_vertex. rewrite E. discriminate.
  - clear IHpre0. rewrite last_last, length_app in *. cbn [length] in *.
    replace (length pre0 + 1 + length polygon - 1)
      with (length pre0 + 1 * length polygon) by lia.
    rewrite Nat.Div0.mod_add, Nat.mod_small by lia.
    rewrite E, <- app_assoc. apply nth_middle.
Qed.

Lemma spec_fold_parity point polygon : forall suf pre inside,
  polygon = pre ++ suf ->
  fold_left
    (fun inside i =>
       if toggles point (nth i polygon origin)
            (nth ((i + length polygon - 1) mod length polygon) polygon origin)
       then negb inside else inside)
    (seq (length pre) (length suf)) inside
  = xorb inside
      (parity point (edges_from (last pre (last polygon origin)) suf)).
Proof.
  induction suf as [|v rest IH]; intros pre inside E.
  - simpl. now rewrite xorb_false_r.
  - cbn [length seq fold_left].
    rewrite (previous_vertex _ _ _ _ E).
    replace (nth (length pre) polygon origin) with v
      by (rewrite E; symmetry; apply nth_middle).
    specialize (IH (pre ++ [v])
      (if toggles point v (last pre (last polygon origin))
       then negb inside else inside)).
    rewrite length_app, Nat.add_1_r, last_last in IH.
    rewrite IH by (rewrite E, <- app_assoc; reflexivity).
    unfold parity. cbn [edges_from map fold_right fst snd].
    apply xorb_toggle.
Qed.

Lemma spec_contains_parity point polygon :
  spec_contains point polygon = parity point (edges polygon).
Proof.
  unfold spec_contains, edges.
  apply (@spec_fold_parity point polygon polygon [] false eq_refl).
Qed.

(** C1.  On a polygon of at least three vertices, [is_point_in_polygon]
    returns without error the flag of the specified ray-casting algorithm:
    starting from false, it is toggled once for each edge joining vertex [i]
    to vertex [(i - 1) mod n] that is a candidate crossing with the point's
    longitude below the interpolated longitude. *)
Theorem is_point_in_polygon_ray_casting point polygon :
  3 <= length polygon ->
  is_point_in_polygon point polygon = Ok (spec_contains point polygon).
Proof.
  intros H. rewrite spec_contains_parity. now apply contains_parity.
Qed.

Lemma is_point_in_polygon_ray_casting_witness :
  3 <= length [ {| lat := 0; lng := 0 |}; {| lat := 0; lng := 1 |};
                {| lat := 1; lng := 1 |}; {| lat := 1; lng := 0 |} ] /\
  is_point_in_polygon {| lat := 0.5; lng := 0.5 |}
    [ {| lat := 0; lng := 0 |}; {| lat := 0; lng := 1 |};
      {| lat := 1; lng := 1 |}; {| lat := 1; lng := 0 |} ] = Ok true.
Proof.
  split; [simpl; lia|].
  rewrite is_point_in_polygon_ray_casting by (simpl; lia).
  vm_compute. reflexivity.
Defined.

(** C2.  A polygon of fewer than three vertices, the empty one included,
    contains no point, and the test returns false without raising. *)
Theorem is_point_in_polygon_degenerate point polygon :
  length polygon < 3 -> is_point_in_polygon point polygon = Ok false.
Proof.
  intros H. unfold is_point_in_polygon.
  destruct (Nat.ltb_spec (length polygon) 3) as [_|?]; [reflexivity|lia].
Qed.

Lemma is_point_in_polygon_degenerate_witness :
  is_point_in_polygon {| lat := 0.5; lng := 0.5 |}
    [ {| lat := 0; lng := 0 |}; {| lat := 1; lng := 1 |} ] = Ok false /\
  is_point_in_polygon {| lat := 0.5; lng := 0.5 |} [] = Ok false.
Proof.
  split; apply is_point_in_polygon_degenerate; simpl; lia.
Defined.

(** ** Division by zero *)

Lemma candidate_distinct point vi vj :
  candidate_crossing point vi vj = true -> (lat vi =? lat vj)%float = false.
Proof.
  unfold candidate_crossing, float_gt. intros C.
  destruct (lat vi =? lat vj)%float eqn:E; [|reflexivity].
  rewrite (Float.eqb_ltb _ _ (lat point) E), eqb_reflx in C. discriminate C.
Qed.

(** C5.  The division of line 38 is evaluated only for a candidate crossing
    (otherwise the test is false without it); a candidate crossing has
    [yi != yj], its divisor [yj - yi] is not zero and the division returns;
    so [is_point_in_polygon] never raises [ZeroDivisionError]. *)
Theorem no_division_by_zero point polygon :
  (forall vi vj, candidate_crossing point vi vj = false ->
     intersect point vi vj = Ok false) /\
  (forall vi vj, candidate_crossing point vi vj = true ->
     (lat vi =? lat vj)%float = false /\
     float_truediv ((lng vj - lng vi) * (lat point - lat vi))%float
                   (lat vj - lat vi)%float
     = Ok ((lng vj - lng vi) * (lat point - lat vi) / (lat vj - lat vi))%float) /\
  is_point_in_polygon point polygon <> Raise ZeroDivisionError.
Proof.
  split; [|split].
  - intros vi vj C. unfold intersect.
    fold (candidate_crossing point vi vj). now rewrite C.
  - intros vi vj C. split; [exact (candidate_distinct _ _ _ C)|].
    unfold float_truediv. now rewrite (candidate_nonzero _ _ _ C).
  - rewrite is_point_in_polygon_contains. discriminate.
Qed.

Lemma no_division_by_zero_witness :
  candidate_crossing {| lat := 1; lng := 0 |}
    {| lat := 0; lng := 0 |} {| lat := 3; lng := 1 |} = true /\
  float_truediv ((1 - 0) * (1 - 0))%float (3 - 0)%float
  = Ok ((1 - 0) * (1 - 0) / (3 - 0))%float.
Proof.
  split; [vm_compute; reflexivity|].
  apply (proj1 (proj2 (no_division_by_zero {| lat := 1; lng := 0 |} []))
           {| lat := 0; lng := 0 |} {| lat := 3; lng := 1 |}).
  vm_compute. reflexivity.
Defined.

(** ** Points above or below every vertex *)

Lemma parity_same_side point (side : bool) : forall polygon prev,
  float_gt (lat prev) (lat point) = side ->
  Forall (fun v => float_gt (lat v) (lat point) = side) polygon ->
  parity point (edges_from prev polygon) = false.
Proof.
  induction polygon as [|v rest IH]; intros prev Hp Hall; [reflexivity|].
  apply Forall_cons_iff in Hall as [Hv Hrest].
  unfold parity in *. cbn [edges_from map fold_right fst snd].
  rewrite (IH v Hv Hrest), xorb_false_r.
  unfold toggles, candidate_crossing. rewrite Hv, Hp, eqb_reflx. reflexivity.
Qed.

Lemma last_Forall (P : Coordinate -> Prop) polygon :
  polygon <> [] -> Forall P polygon -> P (last polygon origin).
Proof.
  intros Hne Hall. destruct (exists_last Hne) as (l & a & ->).
  rewrite last_last. apply Forall_app in Hall as [_ Ha].
  now inversion Ha.
Qed.

Lemma contains_same_side point (side : bool) polygon :
  Forall (fun v => float_gt (lat v) (lat point) = side) polygon ->
  is_point_in_polygon point polygon = Ok false.
Proof.
  intros Hall. rewrite is_point_in_polygon_contains. unfold contains, edges.
  destruct polygon as [|v rest]; [reflexivity|].
  rewrite (parity_same_side point side (v :: rest));
    [now rewrite andb_false_r| |exact Hall].
  apply (last_Forall (fun v => float_gt (lat v) (lat point) = side));
    [discriminate|exact Hall].
Qed.

(** C10.  A point whose latitude is at least every vertex latitude (at or
    above the maximum: the topmost horizontal edge included), or strictly
    below every vertex latitude (below the minimum), is outside the polygon. *)
Theorem outside_latitude_range point polygon :
  Forall (fun v => (lat v <=? lat point)%float = true) polygon \/
  Forall (fun v => (lat point <? lat v)%float = true) polygon ->
  is_point_in_polygon point polygon = Ok false.
Proof.
  intros [H|H].
  - apply (contains_same_side point false).
    eapply Forall_impl; [|exact H]. intros v Hv.
    unfold float_gt. now apply Float.leb_not_ltb.
  - apply (contains_same_side point true). exact H.
Qed.

Lemma outside_latitude_range_witness :
  is_point_in_polygon {| lat := 1; lng := 0.5 |}
    [ {| lat := 0; lng := 0 |}; {| lat := 0; lng := 1 |};
      {| lat := 1; lng := 1 |}; {| lat := 1; lng := 0 |} ] = Ok false /\
  is_point_in_polygon {| lat := -1; lng := 0.5 |}
    [ {| lat := 0; lng := 0 |}; {| lat := 0; lng := 1 |};
      {| lat := 1; lng := 1 |}; {| lat := 1; lng := 0 |} ] = Ok false.
Proof.
  split; apply outside_latitude_range; [left|right];
    repeat constructor.
Defined.

(** ** The first match *)

(** C3.  [find_neighborhood] never raises; it returns [None] when no polygon
    of the list contains the point (the empty list included), and the name of
    the earliest-listed neighborhood that contains the point otherwise, also
    when a later one contains it too. *)
Theorem find_neighborhood_first_match point neighborhoods :
  (exists r, find_neighborhood point neighborhoods = Ok r) /\
  find_neighborhood point [] = Ok None /\
  (Forall (fun n => is_point_in_polygon point (coordinates n) = Ok false)
          neighborhoods ->
   find_neighborhood point neighborhoods = Ok None) /\
  (forall before n after,
     neighborhoods = before ++ n :: after ->
     Forall (fun m => is_point_in_polygon point (coordinates m) = Ok false)
            before ->
     is_point_in_polygon point (coordinates n) = Ok true ->
     find_neighborhood point neighborhoods = Ok (Some (name n))).
Proof.
  split; [|split; [reflexivity|split]].
  - induction neighborhoods as [|n rest IH]; [now exists None|].
    cbn [find_neighborhood]. rewrite is_point_in_polygon_contains. cbn [bind].
    destruct (contains point (coordinates n)); eauto.
  - induction 1 as [|n rest Hn _ IH]; [reflexivity|].
    cbn [find_neighborhood]. rewrite Hn. exact IH.
  - intros before n after -> Hb Hn.
    induction Hb as [|m before' Hm _ IH]; cbn [app find_neighborhood].
    + now rewrite Hn.
    + rewrite Hm. exact IH.
Qed.

Lemma find_neighborhood_first_match_witness :
  find_neighborhood (pt 0.5 0.5)
    [ {| name := "inner"; coordinates := unit_square |};
      {| name := "outer"; coordinates := big_square |} ] = Ok (Some "inner") /\
  find_neighborhood (pt 10 10)
    [ {| name := "inner"; coordinates := unit_square |};
      {| name := "outer"; coordinates := big_square |} ] = Ok None.
Proof.
  split.
  - apply (proj2 (proj2 (proj2 (find_neighborhood_first_match (pt 0.5 0.5) _)))
             [] {| name := "inner"; coordinates := unit_square |}
             [ {| name := "outer"; coordinates := big_square |} ]);
      [reflexivity | constructor | vm_compute; reflexivity].
  - apply (proj1 (proj2 (proj2 (find_neighborhood_first_match (pt 10 10) _)))).
    repeat constructor.
Defined.

(** ** The result depends on the set of edges only *)

Lemma parity_cons point e es :
  parity point (e :: es) = xorb (toggles point (fst e) (snd e)) (parity point es).
Proof. reflexivity. Qed.

Lemma parity_app point es es' :
  parity point (es ++ es') = xorb (parity point es) (parity point es').
Proof.
  induction es as [|e es IH].
  { cbn [app]. change (parity point []) with false. now rewrite xorb_false_l. }
  cbn [app]. rewrite !parity_cons, IH. now rewrite xorb_assoc.
Qed.

Lemma parity_Permutation point es es' :
  Permutation es es' -> parity point es = parity point es'.
Proof.
  induction 1 as [|e es es' _ IH|e e' es|es es' es'' _ IH1 _ IH2].
  - reflexivity.
  - now rewrite !parity_cons, IH.
  - rewrite !parity_cons.
    destruct (toggles point (fst e) (snd e)), (toggles point (fst e') (snd e')),
      (parity point es); reflexivity.
  - now rewrite IH1.
Qed.

Lemma last_default (l : list Coordinate) (d d' : Coordinate) :
  l <> [] -> last l d = last l d'.
Proof.
  intros H. destruct (exists_last H) as (l' & a & ->). now rewrite !last_last.
Qed.

Lemma last_append (l l' : list Coordinate) (d : Coordinate) :
  last (l ++ l') d = last l' (last l d).
Proof.
  destruct l' as [|a l'] using rev_ind.
  - now rewrite app_nil_r.
  - now rewrite app_assoc, !last_last.
Qed.

Lemma edges_from_app : forall l l' prev,
  edges_from prev (l ++ l') = edges_from prev l ++ edges_from (last l prev) l'.
Proof.
  induction l as [|v l IH]; intros l' prev; [reflexivity|].
  assert (E : last (v :: l) prev = last l v).
  { destruct l as [|u l]; [reflexivity|].
    apply (last_default (u :: l)). discriminate. }
  cbn [app edges_from]. now rewrite IH, E.
Qed.

Lemma edges_app_comm (l l' : list Coordinate) :
  Permutation (edges (l' ++ l)) (edges (l ++ l')).
Proof.
  destruct l as [|v l]; [rewrite app_nil_r; apply Permutation_refl|].
  destruct l' as [|v' l']; [rewrite app_nil_r; apply Permutation_refl|].
  unfold edges. rewrite !edges_from_app, !last_append.
  rewrite (last_default (v' :: l') (last (v :: l) _) origin) by discriminate.
  rewrite (last_default (v :: l) (last (v' :: l') _) origin) by discriminate.
  rewrite (last_default (v' :: l') (last (v :: l) origin) origin) by discriminate.
  rewrite (last_default (v :: l) (last (v' :: l') origin) origin) by discriminate.
  apply Permutation_app_comm.
Qed.

Lemma rotate_length k polygon : length (rotate k polygon) = length polygon.
Proof.
  unfold rotate. rewrite length_app, Nat.add_comm, <- length_app.
  now rewrite firstn_skipn.
Qed.

Lemma contains_rotate point k polygon :
  contains point (rotate k polygon) = contains point polygon.
Proof.
  unfold contains. rewrite rotate_length. f_equal.
  apply parity_Permutation. unfold rotate.
  rewrite <- (firstn_skipn k polygon) at 3. apply edges_app_comm.
Qed.

Lemma toggles_same_vertex point v : toggles point v v = false.
Proof. unfold toggles, candidate_crossing. now rewrite eqb_reflx. Qed.

Lemma parity_close_ring point polygon :
  parity point (edges (close_ring polygon)) = parity point (edges polygon).
Proof.
  destruct polygon as [|v rest]; [reflexivity|].
  unfold close_ring, edges. cbn [firstn].
  rewrite last_last. rewrite <- app_comm_cons. cbn [edges_from].
  rewrite edges_from_app. cbn [edges_from].
  rewrite parity_cons, parity_app. cbn [fst snd].
  rewrite toggles_same_vertex, xorb_false_l.
  rewrite !parity_cons. cbn [parity map fold_right fst snd].
  rewrite xorb_false_r, xorb_comm. f_equal. f_equal.
  destruct rest as [|u rest]; [reflexivity|].
  symmetry. apply (last_default (u :: rest)). discriminate.
Qed.

Lemma close_ring_length polygon :
  length (close_ring polygon) = length polygon + Nat.min 1 (length polygon).
Proof.
  unfold close_ring. now rewrite length_app, length_firstn.
Qed.

(** C6, as the code has it.  [is_point_in_polygon] gives the same result on
    every cyclic rotation of the vertex list; repeating the first vertex at
    the end gives the same result too, for every list whose length is not 2
    (so for every polygon of three vertices or more), and for a list of two
    vertices when its one edge toggles the flag in both directions or in
    neither. *)
Theorem rotation_and_closing point polygon :
  (forall k, is_point_in_polygon point (rotate k polygon)
             = is_point_in_polygon point polygon) /\
  (length polygon <> 2 \/ direction_independent point polygon = true ->
   is_point_in_polygon point (close_ring polygon)
   = is_point_in_polygon point polygon).
Proof.
  split.
  - intros k. rewrite !is_point_in_polygon_contains. f_equal.
    apply contains_rotate.
  - intros H. rewrite !is_point_in_polygon_contains. f_equal.
    unfold contains. rewrite close_ring_length.
    destruct polygon as [|a [|b [|c rest]]];
      try reflexivity; [|now rewrite parity_close_ring].
    destruct H as [H|H]; [now contradiction H|].
    unfold direction_independent in H. cbn in H.
    rewrite andb_true_r in H. apply andb_prop in H as [_ H].
    apply eqb_prop in H.
    unfold close_ring, edges, parity.
    cbn [length firstn app last edges_from map fold_right fst snd
         Nat.min Nat.add Nat.leb andb].
    rewrite toggles_same_vertex, H.
    now destruct (toggles point a b).
Qed.

Lemma rotation_and_closing_witness :
  is_point_in_polygon (pt 0.5 0.5) (close_ring unit_square) = Ok true /\
  is_point_in_polygon (pt 0.5 0.5) (rotate 1 unit_square) = Ok true.
Proof.
  split.
  - rewrite (proj2 (rotation_and_closing (pt 0.5 0.5) unit_square));
      [vm_compute; reflexivity | left; simpl; lia].
  - rewrite (proj1 (rotation_and_closing (pt 0.5 0.5) unit_square)).
    vm_compute. reflexivity.
Defined.

(** C6 as stated fails on a list of two vertices: the open list is rejected
    as degenerate, the closed one has three entries and is tested, and the
    two directions of its only edge round the interpolated longitude
    differently. *)
Lemma close_ring_two_vertices :
  is_point_in_polygon on_edge [pt 0 0; pt 3 1] = Ok false /\
  is_point_in_polygon on_edge (close_ring [pt 0 0; pt 3 1]) = Ok true.
Proof. split; vm_compute; reflexivity. Qed.

(** ** Reversing the vertex list *)

Lemma path_snoc w a :
  w <> [] -> path (w ++ [a]) = path w ++ [(a, last w origin)].
Proof.
  destruct w as [|f r]; [congruence|]. intros _.
  cbn [path app]. rewrite edges_from_app. cbn [edges_from].
  do 3 f_equal. destruct r as [|u r]; [reflexivity|].
  apply (last_default (u :: r)). discriminate.
Qed.

Lemma path_rev : forall w, path (rev w) = rev (map swap (path w)).
Proof.
  induction w as [|a l IH]; [reflexivity|].
  destruct l as [|b l']; [reflexivity|].
  change (rev (a :: b :: l')) with (rev (b :: l') ++ [a]).
  rewrite path_snoc.
  - rewrite IH. cbn [rev]. rewrite last_last.
    cbn [path edges_from map rev swap fst snd].
    destruct l'; reflexivity.
  - cbn [rev]. destruct (rev l'); discriminate.
Qed.

Lemma edges_rev polygon :
  Permutation (edges (rev polygon)) (map swap (edges polygon)).
Proof.
  destruct polygon as [|v rest]; [apply perm_nil|].
  assert (E1 : edges (rev (v :: rest))
               = rev (map swap (path (v :: rest)
                                ++ [(v, last (v :: rest) origin)]))).
  { unfold edges. cbn [rev]. rewrite last_last.
    replace (edges_from v (rev rest ++ [v]))
      with (path (rev ((v :: rest) ++ [v])))
      by (rewrite rev_app_distr; reflexivity).
    now rewrite path_rev, path_snoc by discriminate. }
  rewrite E1. unfold edges. cbn [edges_from].
  change (edges_from v rest) with (path (v :: rest)).
  eapply Permutation_trans; [apply Permutation_sym, Permutation_rev|].
  apply Permutation_map, Permutation_sym, Permutation_cons_append.
Qed.

Lemma parity_swap point es :
  forallb (fun e => Bool.eqb (toggles point (fst e) (snd e))
                             (toggles point (snd e) (fst e))) es = true ->
  parity point (map swap es) = parity point es.
Proof.
  induction es as [|e es IH]; [reflexivity|].
  cbn [forallb map]. intros H. apply andb_prop in H as [He Hes].
  rewrite !parity_cons, (IH Hes). cbn [swap fst snd].
  apply eqb_prop in He. now rewrite He.
Qed.

Lemma candidate_crossing_sym point vi vj :
  candidate_crossing point vi vj = candidate_crossing point vj vi.
Proof.
  unfold candidate_crossing.
  destruct (float_gt (lat vi) (lat point)), (float_gt (lat vj) (lat point));
    reflexivity.
Qed.

(** C7, as the code has it.  Which edges are candidate crossings does not
    depend on the direction they are walked in; [is_point_in_polygon] gives
    the same result on the reversed vertex list whenever every edge of the
    ring toggles the flag in one direction iff it does in the other. *)
Theorem winding_direction point polygon :
  (forall vi vj,
     candidate_crossing point vi vj = candidate_crossing point vj vi) /\
  (direction_independent point polygon = true ->
   is_point_in_polygon point (rev polygon)
   = is_point_in_polygon point polygon).
Proof.
  split; [apply candidate_crossing_sym|].
  intros H. rewrite !is_point_in_polygon_contains. f_equal.
  unfold contains. rewrite length_rev. f_equal.
  rewrite (parity_Permutation point _ _ (edges_rev polygon)).
  now apply parity_swap.
Qed.

Lemma winding_direction_witness :
  direction_independent (pt 0.5 0.5) unit_square = true /\
  is_point_in_polygon (pt 0.5 0.5) (rev unit_square) = Ok true.
Proof.
  split; [vm_compute; reflexivity|].
  rewrite (proj2 (winding_direction (pt 0.5 0.5) unit_square));
    vm_compute; reflexivity.
Defined.

(** C7 as stated fails for a point on an edge: walked from [(0, 0)] to
    [(3, 1)] the edge crosses the ray at longitude [1/3], walked the other way
    at the next binary64 number above it. *)
Lemma winding_direction_on_edge :
  is_point_in_polygon on_edge triangle = Ok true /\
  is_point_in_polygon on_edge (rev triangle) = Ok false.
Proof. split; vm_compute; reflexivity. Qed.

(** ** Coordinates that are not numbers *)










(** ** All matches *)

(** What the nested function computes, were it ever bound and called: the
    names of the neighborhoods that contain the point, in list order. *)
Lemma find_all_neighborhoods_filter point neighborhoods :
  find_all_neighborhoods point neighborhoods
  = Ok (map name (filter (fun n => contains point (coordinates n)) neighborhoods)).
Proof.
  induction neighborhoods as [|n rest IH]; [reflexivity|].
  cbn [find_all_neighborhoods filter].
  rewrite is_point_in_polygon_contains, IH. cbn [bind].
  now destruct (contains point (coordinates n)).
Qed.

Lemma find_neighborhood_find contains_point point neighborhoods :
  (forall n, contains_point n = contains point (coordinates n)) ->
  find_neighborhood point neighborhoods
  = Ok (hd_error (map name (filter contains_point neighborhoods))).
Proof.
  intros H. induction neighborhoods as [|n rest IH]; [reflexivity|].
  cbn [find_neighborhood filter].
  rewrite is_point_in_polygon_contains, H. cbn [bind].
  now destruct (contains point (coordinates n)).
Qed.

(** The body of the nested function and [find_neighborhood] agree: the first
    match is the head of the list of all matches. *)
Lemma find_neighborhood_head_of_all point neighborhoods :
  exists names,
    find_all_neighborhoods point neighborhoods = Ok names /\
    find_neighborhood point neighborhoods = Ok (hd_error names).
Proof.
  eexists. split; [apply find_all_neighborhoods_filter|].
  now apply find_neighborhood_find.
Qed.

(** An [if] binds what its body binds. *)
Lemma binds_If body : binds (If body) = bound_names body.
Proof.
  unfold bound_names. induction body as [|s rest IH]; [reflexivity|].
  destruct s; cbn in *; try rewrite IH; reflexivity.
Qed.

Lemma find_all_neighborhoods_not_global :
  existsb (String.eqb "find_all_neighborhoods") search2_globals = false.
Proof. reflexivity. Qed.

(** C4.  [search2.py] never binds the name [find_all_neighborhoods]: its
    [def] follows the last [return] of [find_neighborhood], inside that
    function.  The module's globals do not hold it, the body of
    [find_neighborhood] never binds it either, and calling it raises
    [NameError] on every input instead of returning the list of names. *)
Theorem find_all_neighborhoods_unbound point neighborhoods :
  ~ In "find_all_neighborhoods" search2_globals /\
  ~ In "find_all_neighborhoods" (bound_names find_neighborhood_body) /\
  call_find_all_neighborhoods point neighborhoods = Raise NameError.
Proof.
  split; [|split].
  - cbv. intuition discriminate.
  - cbv. intuition discriminate.
  - unfold call_find_all_neighborhoods.
    now rewrite find_all_neighborhoods_not_global.
Qed.

(** C9.  On the empty list [find_neighborhood] returns [None], and the call
    of [find_all_neighborhoods] it is compared with does not return the empty
    list: it raises [NameError], the name being unbound. *)
Theorem find_first_without_find_all :
  find_neighborhood (pt 0 0) [] = Ok None /\
  call_find_all_neighborhoods (pt 0 0) [] = Raise NameError /\
  call_find_all_neighborhoods (pt 0 0) [] <> Ok [].
Proof. repeat split. discriminate. Qed.

(** * Further properties of [search2.py] *)

(** ** What a returned name means *)

Lemma find_neighborhood_cons point n rest :
  find_neighborhood point (n :: rest)
  = if contains point (coordinates n) then Ok (Some (name n))
    else find_neighborhood point rest.
Proof.
  cbn [find_neighborhood]. now rewrite is_point_in_polygon_contains.
Qed.

(** X1.  A name returned by [find_neighborhood] is the name of a listed
    neighborhood whose polygon contains the point, and no neighborhood
    listed before it contains the point; [None] is returned only when no
    listed polygon contains the point. *)
Theorem find_neighborhood_sound point neighborhoods :
  (forall s, find_neighborhood point neighborhoods = Ok (Some s) ->
     exists before n after,
       neighborhoods = before ++ n :: after /\ name n = s /\
       is_point_in_polygon point (coordinates n) = Ok true /\
       Forall (fun m => is_point_in_polygon point (coordinates m) = Ok false)
              before) /\
  (find_neighborhood point neighborhoods = Ok None ->
   Forall (fun m => is_point_in_polygon point (coordinates m) = Ok false)
          neighborhoods).
Proof.
  split.
  - induction neighborhoods as [|n rest IH]; intros s H; [discriminate H|].
    rewrite find_neighborhood_cons in H.
    destruct (contains point (coordinates n)) eqn:C.
    + exists [], n, rest. repeat split; [congruence| |constructor].
      now rewrite is_point_in_polygon_contains, C.
    + destruct (IH s H) as (before & m & after & -> & Hs & Hm & Hb).
      exists (n :: before), m, after. repeat split; try assumption.
      constructor; [|assumption].
      now rewrite is_point_in_polygon_contains, C.
  - induction neighborhoods as [|n rest IH]; intros H; [constructor|].
    rewrite find_neighborhood_cons in H.
    destruct (contains point (coordinates n)) eqn:C; [discriminate H|].
    constructor; [|now apply IH].
    now rewrite is_point_in_polygon_contains, C.
Qed.

Lemma find_neighborhood_sound_witness :
  exists before n after,
    [ {| name := "outer"; coordinates := big_square |};
      {| name := "inner"; coordinates := unit_square |} ]
    = before ++ n :: after /\ name n = "outer" /\
    is_point_in_polygon (pt 0.5 0.5) (coordinates n) = Ok true /\
    Forall (fun m => is_point_in_polygon (pt 0.5 0.5) (coordinates m) = Ok false)
           before.
Proof.
  apply (proj1 (find_neighborhood_sound (pt 0.5 0.5) _) "outer").
  vm_compute. reflexivity.
Defined.

(** X2.  Searching two lists one after the other: the result on [l ++ l']
    is the match in [l] when there is one, and the result on [l']
    otherwise. *)
Theorem find_neighborhood_app point l l' :
  find_neighborhood point (l ++ l')
  = match find_neighborhood point l with
    | Ok None => find_neighborhood point l'
    | found => found
    end.
Proof.
  induction l as [|n rest IH]; [reflexivity|].
  cbn [app]. rewrite !find_neighborhood_cons.
  now destruct (contains point (coordinates n)).
Qed.

(** X3.  Neighborhoods whose polygon has fewer than three vertices never
    match: dropping them from the list does not change the result. *)
Theorem find_neighborhood_skips_degenerate point neighborhoods :
  find_neighborhood point
    (filter (fun n => (3 <=? length (coordinates n))%nat) neighborhoods)
  = find_neighborhood point neighborhoods.
Proof.
  induction neighborhoods as [|n rest IH]; [reflexivity|].
  cbn [filter]. rewrite (find_neighborhood_cons point n rest).
  unfold contains at 1.
  destruct (3 <=? length (coordinates n))%nat eqn:L; cbn [andb].
  - rewrite find_neighborhood_cons. unfold contains. rewrite L, IH.
    reflexivity.
  - exact IH.
Qed.

(** ** A point that is not a number *)

Lemma SFcompare_refl x : x <> S754_nan -> SFcompare x x = Some Eq.
Proof.
  destruct x as [s|s| |s m e]; intros H; [reflexivity| |congruence|].
  - now destruct s.
  - cbn [SFcompare]. rewrite Z.compare_refl, Pos.compare_cont_refl.
    now destruct s.
Qed.

Lemma nan_Prim2SF (x : float) :
  (x =? x)%float = false -> Prim2SF x = S754_nan.
Proof.
  rewrite FloatAxioms.eqb_spec. unfold SFeqb. intros H.
  destruct (Prim2SF x) as [s|s| |s m e] eqn:E; [| |reflexivity|];
    rewrite SFcompare_refl in H by discriminate; discriminate H.
Qed.

Lemma nan_ltb (x y : float) :
  (x =? x)%float = false -> (x <? y)%float = false /\ (y <? x)%float = false.
Proof.
  intros H. apply nan_Prim2SF in H.
  rewrite !FloatAxioms.ltb_spec, H. unfold SFltb. split; [reflexivity|].
  now destruct (Prim2SF y).
Qed.

Lemma parity_no_toggle point es :
  (forall vi vj, toggles point vi vj = false) -> parity point es = false.
Proof.
  intros H. induction es as [|e es IH]; [reflexivity|].
  now rewrite parity_cons, H, IH.
Qed.

(** X4.  A point whose latitude or longitude is NaN (the float that differs
    from itself) is inside no polygon: every comparison with it is false. *)
Theorem nan_point_outside point polygon :
  (lat point =? lat point)%float = false \/
  (lng point =? lng point)%float = false ->
  is_point_in_polygon point polygon = Ok false.
Proof.
  intros [H|H].
  - apply (contains_same_side point false).
    apply Forall_forall. intros v _. unfold float_gt.
    apply (nan_ltb _ (lat v) H).
  - rewrite is_point_in_polygon_contains. unfold contains.
    rewrite parity_no_toggle; [now rewrite andb_false_r|].
    intros vi vj. unfold toggles.
    rewrite (proj1 (nan_ltb _ (x_intersect point vi vj) H)).
    apply andb_false_r.
Qed.

Lemma nan_point_outside_witness :
  is_point_in_polygon (pt (0 / 0) 0.5) unit_square = Ok false /\
  is_point_in_polygon (pt 0.5 (0 / 0)) unit_square = Ok false.
Proof.
  split; apply nan_point_outside; [left|right]; vm_compute; reflexivity.
Defined.

(** ** A vertex listed twice in a row *)

Lemma last_cons_self (v : Coordinate) (suf : list Coordinate) :
  last (v :: suf) v = last suf v.
Proof. now destruct suf. Qed.

Lemma edges_repeated_vertex point pre v suf :
  parity point (edges (pre ++ v :: v :: suf))
  = parity point (edges (pre ++ v :: suf)).
Proof.
  unfold edges.
  change (pre ++ v :: v :: suf) with (pre ++ [v] ++ v :: suf).
  change (pre ++ v :: suf) with (pre ++ [v] ++ suf).
  rewrite !app_assoc, !edges_from_app, !last_last.
  rewrite !(last_append (pre ++ [v])), !last_last.
  cbn [edges_from]. rewrite last_cons_self.
  rewrite !parity_app, (parity_cons point (v, v)). cbn [fst snd].
  now rewrite toggles_same_vertex, xorb_false_l.
Qed.

(** X5.  Listing a vertex twice in a row does not change the result, as long
    as the polygon without the repetition has at least three vertices. *)
Theorem repeated_vertex point pre v suf :
  3 <= length (pre ++ v :: suf) ->
  is_point_in_polygon point (pre ++ v :: v :: suf)
  = is_point_in_polygon point (pre ++ v :: suf).
Proof.
  intros H. rewrite !is_point_in_polygon_contains. f_equal. unfold contains.
  rewrite edges_repeated_vertex.
  destruct (Nat.leb_spec 3 (length (pre ++ v :: suf))) as [_|?]; [|lia].
  destruct (Nat.leb_spec 3 (length (pre ++ v :: v :: suf))) as [_|L];
    [reflexivity|].
  rewrite length_app in *. cbn [length] in *. lia.
Qed.

Lemma repeated_vertex_witness :
  is_point_in_polygon (pt 0.5 0.5)
    [pt 0 0; pt 0 1; pt 0 1; pt 1 1; pt 1 0] = Ok true.
Proof.
  refine (eq_trans (repeated_vertex (pt 0.5 0.5) [pt 0 0] (pt 0 1)
                      [pt 1 1; pt 1 0] _) _);
    [simpl; lia | vm_compute; reflexivity].
Defined.

(** ** The first match ends the search *)

(** X6.  On untyped values [find_neighborhood] examines the neighborhoods in
    order and stops at the first match: entries after it are never examined,
    whatever they hold, while an exception raised by an entry before any
    match is the outcome of the call. *)
Theorem find_neighborhood_obj_stops point before n after :
  Forall (fun m => is_point_in_polygon_obj point (obj_coordinates m) = Ok false)
         before ->
  (is_point_in_polygon_obj point (obj_coordinates n) = Ok true ->
   find_neighborhood_obj point (before ++ n :: after) = Ok (Some (obj_name n))) /\
  (forall e, is_point_in_polygon_obj point (obj_coordinates n) = Raise e ->
   find_neighborhood_obj point (before ++ n :: after) = Raise e).
Proof.
  induction 1 as [|m before' Hm _ IH]; cbn [app find_neighborhood_obj].
  - split; [intros ->|intros e ->]; reflexivity.
  - rewrite Hm. exact IH.
Qed.

Lemma find_neighborhood_obj_stops_witness :
  find_neighborhood_obj (to_obj (pt 0.5 0.5))
    [ {| obj_name := PyStr "inner"; obj_coordinates := map to_obj unit_square |};
      {| obj_name := PyNone;
         obj_coordinates := [ {| obj_lat := PyNone; obj_lng := PyNone |};
                              {| obj_lat := PyNone; obj_lng := PyNone |};
                              {| obj_lat := PyNone; obj_lng := PyNone |} ] |} ]
  = Ok (Some (PyStr "inner")) /\
  find_neighborhood_obj (to_obj (pt 0.5 0.5))
    [ {| obj_name := PyNone;
         obj_coordinates := [ {| obj_lat := PyNone; obj_lng := PyNone |};
                              {| obj_lat := PyNone; obj_lng := PyNone |};
                              {| obj_lat := PyNone; obj_lng := PyNone |} ] |};
      {| obj_name := PyStr "inner"; obj_coordinates := map to_obj unit_square |} ]
  = Raise TypeError.
Proof.
  split.
  - apply (proj1 (find_neighborhood_obj_stops (to_obj (pt 0.5 0.5)) []
                    {| obj_name := PyStr "inner";
                       obj_coordinates := map to_obj unit_square |} _
                    (Forall_nil _))).
    vm_compute. reflexivity.
  - apply (proj2 (find_neighborhood_obj_stops (to_obj (pt 0.5 0.5)) []
                    {| obj_name := PyNone;
                       obj_coordinates :=
                         [ {| obj_lat := PyNone; obj_lng := PyNone |};
                           {| obj_lat := PyNone; obj_lng := PyNone |};
                           {| obj_lat := PyNone; obj_lng := PyNone |} ] |} _
                    (Forall_nil _))).
    vm_compute. reflexivity.
Defined.

(** * Properties of [simple_checker.py] *)

Import SimpleChecker.

(** ** [create_neighborhood] *)


Lemma read_polygon_raises py : forall inputs acc out e rest out',
  read_polygon py acc inputs out = (Raised e, rest, out') -> rest = [].
Proof.
  induction inputs as [|line inputs IH]; intros acc out e rest out' H;
    cbn [read_polygon] in H; [now injection H|].
  destruct (String.eqb (str_lower py line) "done").
  - destruct (length acc <? 3)%nat; [exact (IH _ _ _ _ _ H)|discriminate H].
  - destruct (unpack_pair _); exact (IH _ _ _ _ _ H).
Qed.






(** X9.  Closing the ring (lines 36-38): when the first point holds no NaN,
    the saved ring starts with the typed points, its first and last points
    compare equal, and closing it again adds nothing: a ring the user closed
    by hand is not given a second closing point. *)
Theorem close_polygon_closed first rest :
  coord_ne first first = false ->
  firstn (length (first :: rest)) (close_polygon (first :: rest))
  = first :: rest /\
  coord_ne first (last (close_polygon (first :: rest)) first) = false /\
  close_polygon (close_polygon (first :: rest)) = close_polygon (first :: rest).
Proof.
  intros N.
  destruct (coord_ne first (last (first :: rest) first)) eqn:C.
  - assert (R : close_polygon (first :: rest) = (first :: rest) ++ [first])
      by (unfold close_polygon; now rewrite C).
    rewrite R. split; [|split].
    + rewrite firstn_app, Nat.sub_diag, firstn_all. cbn [firstn].
      apply app_nil_r.
    + now rewrite last_last.
    + cbn [app]. unfold close_polygon.
      change (first :: rest ++ [first]) with ((first :: rest) ++ [first]).
      now rewrite last_last, N.
  - assert (R : close_polygon (first :: rest) = first :: rest)
      by (unfold close_polygon; now rewrite C).
    rewrite R. split; [|split].
    + apply firstn_all.
    + exact C.
    + exact R.
Qed.

Lemma close_polygon_closed_witness :
  close_polygon [(0, 0); (0, 1); (1, 1)]%float
  = [(0, 0); (0, 1); (1, 1); (0, 0)]%float /\
  close_polygon [(0, 0); (0, 1); (1, 1); (0, 0)]%float
  = [(0, 0); (0, 1); (1, 1); (0, 0)]%float.
Proof.
  split; [reflexivity|].
  apply (proj2 (proj2 (close_polygon_closed (0, 0)%float
                         [(0, 1); (1, 1)]%float eq_refl))).
Defined.

(** ** [delete_neighborhood] *)

Lemma delete_loop_rejected py neighborhoods line inputs out :
  rejected_number py (length neighborhoods) line ->
  exists out',
    delete_loop py neighborhoods (line :: inputs) out
    = delete_loop py neighborhoods inputs out'.
Proof.
  intros [C N]. cbn [delete_loop]. rewrite C.
  destruct (int_of_str py line) as [number|]; [|eauto].
  destruct (Z.leb_spec 0 (number - 1)); cbn [andb]; [|eauto].
  destruct (Z.ltb_spec (number - 1) (Z.of_nat (length neighborhoods)));
    [lia|eauto].
Qed.

Lemma delete_loop_skips py neighborhoods inputs : forall rejected out,
  Forall (rejected_number py (length neighborhoods)) rejected ->
  exists out',
    delete_loop py neighborhoods (rejected ++ inputs) out
    = delete_loop py neighborhoods inputs out'.
Proof.
  induction rejected as [|line rejected IH]; intros out H; [now exists out|].
  apply Forall_cons_iff in H as [Hl Hr].
  destruct (delete_loop_rejected py neighborhoods line (rejected ++ inputs)
              out Hl) as [out1 E1].
  destruct (IH out1 Hr) as [out2 E2].
  exists out2. cbn [app]. now rewrite E1.
Qed.

Lemma delete_loop_number py neighborhoods line rest out number :
  String.eqb (str_lower py line) "cancel" = false ->
  int_of_str py line = Some number ->
  (1 <= number <= Z.of_nat (length neighborhoods))%Z ->
  exists out',
    delete_loop py neighborhoods (line :: rest) out
    = (Returned (Some (pop neighborhoods (Z.to_nat (number - 1)))), rest, out').
Proof.
  intros C N R. cbn [delete_loop]. rewrite C, N.
  destruct (Z.leb_spec 0 (number - 1)); [|lia].
  destruct (Z.ltb_spec (number - 1) (Z.of_nat (length neighborhoods)));
    [|lia].
  cbn [andb]. eauto.
Qed.

Lemma delete_neighborhood_loop py w neighborhoods :
  file w = Some neighborhoods -> neighborhoods <> [] ->
  exists out,
    delete_neighborhood py w
    = match delete_loop py neighborhoods (stdin w) out with
      | (Raised e, inputs, out') =>
          (Raised e, {| stdin := inputs; stdout := out'; file := file w |})
      | (Returned None, inputs, out') =>
          (Returned tt, {| stdin := inputs; stdout := out'; file := file w |})
      | (Returned (Some remaining), inputs, out') =>
          (Returned tt,
           {| stdin := inputs; stdout := out'; file := Some remaining |})
      end.
Proof.
  intros F N. unfold delete_neighborhood. rewrite F.
  destruct neighborhoods as [|n rest]; [congruence|]. eauto.
Qed.

(** X10.  Deleting entry [number], for [1 <= number <= len]: lines that are
    no number, or a number out of that range (0 and negative numbers
    included), are answered with a message and skipped; then the file holds
    the entries before and after the chosen one, in their order, and the
    rest of the input is left unread. *)
Theorem delete_neighborhood_removes py w neighborhoods rejected line rest number :
  file w = Some neighborhoods ->
  stdin w = rejected ++ line :: rest ->
  Forall (rejected_number py (length neighborhoods)) rejected ->
  String.eqb (str_lower py line) "cancel" = false ->
  int_of_str py line = Some number ->
  (1 <= number <= Z.of_nat (length neighborhoods))%Z ->
  exists w',
    delete_neighborhood py w = (Returned tt, w') /\
    stdin w' = rest /\
    file w' = Some (firstn (Z.to_nat (number - 1)) neighborhoods
                    ++ skipn (Z.to_nat number) neighborhoods).
Proof.
  intros F E Hr C N R.
  destruct (delete_neighborhood_loop py w neighborhoods F) as [out D].
  { intros ->. cbn [length] in R. lia. }
  rewrite D, E.
  destruct (delete_loop_skips py neighborhoods (line :: rest) rejected out Hr)
    as [out1 E1].
  destruct (delete_loop_number py neighborhoods line rest out1 number C N R)
    as [out2 E2].
  rewrite E1, E2. eexists. repeat split. cbn [file]. unfold pop.
  replace (S (Z.to_nat (number - 1))) with (Z.to_nat number) by lia.
  reflexivity.
Qed.

Lemma delete_neighborhood_removes_witness :
  exists w',
    delete_neighborhood example_py
      {| stdin := ["0"; "3"; "one"; "2"; "later"]; stdout := [];
         file := Some example_store |}
    = (Returned tt, w') /\
    stdin w' = ["later"] /\
    file w' = Some (firstn (Z.to_nat (2 - 1)) example_store
                    ++ skipn (Z.to_nat 2) example_store).
Proof.
  apply (delete_neighborhood_removes example_py
           {| stdin := ["0"; "3"; "one"; "2"; "later"]; stdout := [];
              file := Some example_store |}
           example_store ["0"; "3"; "one"] "2" ["later"] 2%Z).
  - reflexivity.
  - reflexivity.
  - repeat constructor; simpl; lia.
  - reflexivity.
  - reflexivity.
  - simpl. lia.
Defined.

(** X11.  Typing ['cancel'] (in any letter case [str.lower] maps to it),
    after any number of rejected lines, ends [delete_neighborhood] with the
    file unchanged. *)
Theorem delete_neighborhood_cancel py w neighborhoods rejected line rest :
  file w = Some neighborhoods ->
  stdin w = rejected ++ line :: rest ->
  Forall (rejected_number py (length neighborhoods)) rejected ->
  String.eqb (str_lower py line) "cancel" = true ->
  exists w',
    delete_neighborhood py w = (Returned tt, w') /\
    stdin w' = (match neighborhoods with [] => stdin w | _ => rest end) /\
    file w' = file w.
Proof.
  intros F E Hr C.
  destruct neighborhoods as [|n ns].
  { unfold delete_neighborhood. rewrite F. eexists. repeat split.
    exact F. }
  destruct (delete_neighborhood_loop py w (n :: ns) F) as [out D];
    [discriminate|].
  rewrite D, E.
  destruct (delete_loop_skips py (n :: ns) (line :: rest) rejected out Hr)
    as [out1 E1].
  rewrite E1. cbn [delete_loop]. rewrite C. eexists. repeat split.
Qed.

Lemma delete_neighborhood_cancel_witness :
  exists w',
    delete_neighborhood example_py
      {| stdin := ["3"; "cancel"; "later"]; stdout := [];
         file := Some example_store |}
    = (Returned tt, w') /\
    stdin w' = ["later"] /\
    file w' = Some example_store.
Proof.
  apply (delete_neighborhood_cancel example_py
           {| stdin := ["3"; "cancel"; "later"]; stdout := [];
              file := Some example_store |}
           example_store ["3"] "cancel" ["later"]).
  - reflexivity.
  - reflexivity.
  - repeat constructor; simpl; lia.
  - reflexivity.
Defined.

Lemma delete_loop_pops py neighborhoods : forall inputs out,
  match delete_loop py neighborhoods inputs out with
  | (Returned (Some remaining), _, _) =>
      exists idx, idx < length neighborhoods /\ remaining = pop neighborhoods idx
  | _ => True
  end.
Proof.
  induction inputs as [|line inputs IH]; intros out; cbn [delete_loop];
    [exact I|].
  destruct (String.eqb (str_lower py line) "cancel"); [exact I|].
  destruct (int_of_str py line) as [number|]; [|apply IH].
  destruct (Z.leb_spec 0 (number - 1)); cbn [andb]; [|apply IH].
  destruct (Z.ltb_spec (number - 1) (Z.of_nat (length neighborhoods)));
    [|apply IH].
  exists (Z.to_nat (number - 1)). split; [lia|reflexivity].
Qed.

(** X12.  Whatever is typed, [delete_neighborhood] leaves the file as it was
    or rewrites it with exactly one entry removed by [pop]; it creates no
    file, adds nothing and never removes two entries. *)
Theorem delete_neighborhood_at_most_one py w :
  file (snd (delete_neighborhood py w)) = file w \/
  exists neighborhoods idx,
    file w = Some neighborhoods /\ idx < length neighborhoods /\
    file (snd (delete_neighborhood py w)) = Some (pop neighborhoods idx) /\
    fst (delete_neighborhood py w) = Returned tt.
Proof.
  unfold delete_neighborhood.
  destruct (file w) as [[|n ns]|] eqn:F; [left; exact F| |left; exact F].
  match goal with
  | |- context [delete_loop py (n :: ns) (stdin w) ?out] =>
      pose proof (delete_loop_pops py (n :: ns) (stdin w) out) as P;
      destruct (delete_loop py (n :: ns) (stdin w) out)
        as [[[[remaining|]|e] inputs] out']
  end; try (left; reflexivity).
  destruct P as (idx & L & ->). right. exists (n :: ns), idx. auto.
Qed.

Lemma create_neighborhood_file py w w' :
  create_neighborhood py w = (Returned tt, w') ->
  exists entry,
    file w' = Some (match file w with
                    | Some existing => existing
                    | None => []
                    end ++ [entry]).
Proof.
  unfold create_neighborhood, input.
  destruct (stdin w) as [|typed inputs]; [discriminate|].
  cbn [print stdin stdout file].
  destruct (read_polygon py [] inputs _) as [[[coords|e] rest] out];
    [|discriminate].
  intros H. injection H as <-. cbn [print file]. eauto.
Qed.

(** X13.  Creating a neighborhood and then deleting the entry with the last
    number restores the list the file held before (the empty list when there
    was no file). *)
Theorem create_then_delete py w w1 line rest :
  create_neighborhood py w = (Returned tt, w1) ->
  stdin w1 = line :: rest ->
  String.eqb (str_lower py line) "cancel" = false ->
  int_of_str py line
  = Some (Z.of_nat (S (length (match file w with
                               | Some existing => existing
                               | None => []
                               end)))) ->
  exists w2,
    delete_neighborhood py w1 = (Returned tt, w2) /\
    stdin w2 = rest /\
    file w2 = Some (match file w with
                    | Some existing => existing
                    | None => []
                    end).
Proof.
  intros Hc E C N.
  destruct (create_neighborhood_file py w w1 Hc) as [entry F].
  set (existing := match file w with Some e => e | None => [] end) in *.
  destruct (delete_neighborhood_loop py w1 (existing ++ [entry]) F)
    as [out D]; [now destruct existing|].
  rewrite D, E.
  destruct (delete_loop_number py (existing ++ [entry]) line rest out _ C N)
    as [out' E'].
  { rewrite length_app. cbn [length]. lia. }
  rewrite E'. eexists. repeat split. cbn [file]. f_equal. unfold pop.
  replace (Z.to_nat (Z.of_nat (S (length existing)) - 1))
    with (length existing) by lia.
  rewrite firstn_app, Nat.sub_diag, firstn_all. cbn [firstn].
  rewrite skipn_all2 by (rewrite length_app; cbn [length]; lia).
  now rewrite !app_nil_r.
Qed.

Lemma create_then_delete_witness :
  exists w2,
    delete_neighborhood example_py
      (snd (create_neighborhood example_py
              {| stdin := ["east"; "0,0"; "0,1"; "1,1"; "done"; "3"; "later"];
                 stdout := []; file := Some example_store |}))
    = (Returned tt, w2) /\
    stdin w2 = ["later"] /\
    file w2 = Some example_store.
Proof.
  apply (create_then_delete example_py
           {| stdin := ["east"; "0,0"; "0,1"; "1,1"; "done"; "3"; "later"];
              stdout := []; file := Some example_store |} _ "3" ["later"]).
  - vm_compute. reflexivity.
  - reflexivity.
  - reflexivity.
  - reflexivity.
Defined.

(** ** [select_neighborhoods] and [list_neighborhoods] *)

Lemma py_index_mod {A : Type} (l : list A) (i : Z) :
  (- Z.of_nat (length l) <= i < Z.of_nat (length l))%Z ->
  exists a,
    py_index l i = Some a /\
    nth_error l (Z.to_nat (i mod Z.of_nat (length l))) = Some a.
Proof.
  intros R. unfold py_index.
  assert (Hsome : forall k, k < length l -> exists a, nth_error l k = Some a).
  { intros k Hk. destruct (nth_error l k) eqn:E; [eauto|].
    apply nth_error_None in E. lia. }
  destruct (Z.leb_spec 0 i) as [P|P].
  - destruct (Z.ltb_spec i (Z.of_nat (length l))); [|lia]. cbn [andb].
    rewrite Z.mod_small by lia.
    destruct (Hsome (Z.to_nat i)) as [a E]; [lia|]. eauto.
  - cbn [andb].
    destruct (Z.leb_spec (- Z.of_nat (length l)) i); [|lia].
    destruct (Z.ltb_spec i 0); [|lia]. cbn [andb].
    replace (i mod Z.of_nat (length l))%Z with (Z.of_nat (length l) + i)%Z
      by (apply (Z.mod_unique i _ (-1)); lia).
    destruct (Hsome (Z.to_nat (Z.of_nat (length l) + i))) as [a E]; [lia|].
    eauto.
Qed.

Lemma py_index_out_of_range {A : Type} (l : list A) (i : Z) :
  (i < - Z.of_nat (length l) \/ Z.of_nat (length l) <= i)%Z ->
  py_index l i = None.
Proof.
  intros R. unfold py_index.
  destruct (Z.leb_spec 0 i); cbn [andb].
  - destruct (Z.ltb_spec i (Z.of_nat (length l))); [lia|]. cbn [andb].
    destruct (Z.leb_spec (- Z.of_nat (length l)) i); cbn [andb];
      [|reflexivity].
    destruct (Z.ltb_spec i 0); [lia|reflexivity].
  - destruct (Z.leb_spec (- Z.of_nat (length l)) i); [lia|reflexivity].
Qed.

(** X14.  A choice whose comma-separated fields are all integers [k] with
    [-len < k <= len] selects, for each field in the order typed and with
    repetitions, entry [(k - 1) mod len] of the list counted from 0: entry
    [k] of the numbered list for [1 <= k <= len], but the last entry for 0,
    the one before it for -1, and so on (Python's negative indices). *)
Theorem selected_by_numbers py all_neighborhoods choice numbers :
  all_or_none (map (fun x => int_of_str py (str_strip py x))
                   (split_comma choice)) = Some numbers ->
  Forall (fun k => (- Z.of_nat (length all_neighborhoods) < k
                    <= Z.of_nat (length all_neighborhoods))%Z) numbers ->
  exists selected,
    selected_by py all_neighborhoods choice = Some selected /\
    Forall2 (fun k entry =>
               nth_error all_neighborhoods
                 (Z.to_nat ((k - 1) mod Z.of_nat (length all_neighborhoods)))
               = Some entry)
            numbers selected.
Proof.
  intros H R. unfold selected_by. rewrite H. clear H.
  induction R as [|k numbers Hk _ IH]; [exists []; split; constructor|].
  destruct IH as (selected & E & F).
  destruct (py_index_mod all_neighborhoods (k - 1)) as (a & Ea & Na); [lia|].
  exists (a :: selected). cbn [map all_or_none]. rewrite Ea, E.
  split; [reflexivity|]. now constructor.
Qed.

Lemma selected_by_numbers_witness :
  exists selected,
    selected_by example_py example_store "2,0,1" = Some selected /\
    Forall2 (fun k entry =>
               nth_error example_store
                 (Z.to_nat ((k - 1) mod Z.of_nat (length example_store)))
               = Some entry)
            [2; 0; 1]%Z selected.
Proof.
  apply (selected_by_numbers example_py example_store "2,0,1" [2; 0; 1]%Z).
  - reflexivity.
  - repeat constructor; simpl; lia.
Defined.

(** X15.  A choice with a field above [len], or at or below [-len], selects
    nothing: the [IndexError] is caught and the choice is asked again. *)
Theorem selected_by_out_of_range py all_neighborhoods choice numbers :
  all_or_none (map (fun x => int_of_str py (str_strip py x))
                   (split_comma choice)) = Some numbers ->
  Exists (fun k => (k <= - Z.of_nat (length all_neighborhoods) \/
                    Z.of_nat (length all_neighborhoods) < k)%Z) numbers ->
  selected_by py all_neighborhoods choice = None.
Proof.
  intros H R. unfold selected_by. rewrite H. clear H.
  induction R as [k numbers Hk|k numbers _ IH]; cbn [map all_or_none].
  - rewrite py_index_out_of_range by lia. reflexivity.
  - rewrite IH. now destruct (py_index all_neighborhoods (k - 1)).
Qed.

Lemma selected_by_out_of_range_witness :
  selected_by example_py example_store "1,3" = None.
Proof.
  apply (selected_by_out_of_range example_py example_store "1,3" [1; 3]%Z).
  - reflexivity.
  - right. left. simpl. lia.
Defined.

Lemma all_or_none_incl {A : Type} (l : list A) : forall idxs selected,
  all_or_none (map (py_index l) idxs) = Some selected -> incl selected l.
Proof.
  induction idxs as [|i idxs IH]; intros selected H; cbn [map all_or_none] in H.
  - injection H as <-. apply incl_nil_l.
  - destruct (py_index l i) as [a|] eqn:E; [|discriminate H].
    destruct (all_or_none (map (py_index l) idxs)) as [rest|];
      [|discriminate H].
    injection H as <-. apply incl_cons; [|now apply IH].
    unfold py_index in E.
    destruct (_ && _)%bool; [exact (nth_error_In _ _ E)|].
    destruct (_ && _)%bool; [exact (nth_error_In _ _ E)|discriminate E].
Qed.

Lemma selected_by_incl py all_neighborhoods choice selected :
  selected_by py all_neighborhoods choice = Some selected ->
  incl selected all_neighborhoods.
Proof.
  unfold selected_by. destruct (all_or_none _) as [numbers|]; [|discriminate].
  rewrite <- (map_map (fun i => (i - 1)%Z) (py_index all_neighborhoods)).
  apply all_or_none_incl.
Qed.

Lemma select_loop_incl py all_neighborhoods : forall inputs out,
  match select_loop py all_neighborhoods inputs out with
  | (Returned selected, _, _) => incl selected all_neighborhoods
  | _ => True
  end.
Proof.
  induction inputs as [|typed inputs IH]; intros out; cbn [select_loop];
    [exact I|].
  destruct (String.eqb _ "all"); [apply incl_refl|].
  destruct (selected_by py all_neighborhoods _) as [selected|] eqn:S;
    [|apply IH].
  exact (selected_by_incl _ _ _ _ S).
Qed.

(** X16.  [select_neighborhoods] never changes the file, and every entry it
    returns is an entry of the file: nothing is selected that was not
    saved. *)
Theorem select_neighborhoods_safe py w :
  file (snd (select_neighborhoods py w)) = file w /\
  match fst (select_neighborhoods py w) with
  | Returned selected =>
      incl selected (match file w with
                     | Some neighborhoods => neighborhoods
                     | None => []
                     end)
  | Raised _ => True
  end.
Proof.
  unfold select_neighborhoods, list_neighborhoods.
  destruct (file w) as [[|n ns]|] eqn:F; cbn [fst snd print file];
    try (split; [first [assumption|reflexivity]|apply incl_nil_l]).
  match goal with
  | |- context [select_loop py (n :: ns) ?inputs ?out] =>
      pose proof (select_loop_incl py (n :: ns) inputs out) as P;
      destruct (select_loop py (n :: ns) inputs out) as [[r inputs'] out']
  end.
  cbn [fst snd file]. split; [first [assumption|reflexivity]|]. now destruct r.
Qed.

Lemma select_loop_skips py all_neighborhoods inputs : forall rejected out,
  Forall (rejected_choice py all_neighborhoods) rejected ->
  exists out',
    select_loop py all_neighborhoods (rejected ++ inputs) out
    = select_loop py all_neighborhoods inputs out'.
Proof.
  induction rejected as [|typed rejected IH]; intros out H; [now exists out|].
  apply Forall_cons_iff in H as [[Ha Hs] Hr].
  cbn [app select_loop]. rewrite Ha, Hs. apply IH, Hr.
Qed.

(** X17.  After any number of rejected choices, typing ['all'] (stripped,
    in any letter case [str.lower] maps to it) returns every entry of the
    file, in file order, and leaves the rest of the input unread. *)
Theorem select_neighborhoods_all py w neighborhoods rejected typed rest :
  file w = Some neighborhoods ->
  neighborhoods <> [] ->
  stdin w = rejected ++ typed :: rest ->
  Forall (rejected_choice py neighborhoods) rejected ->
  String.eqb (str_lower py (str_strip py typed)) "all" = true ->
  exists w',
    select_neighborhoods py w = (Returned neighborhoods, w') /\
    stdin w' = rest /\ file w' = file w.
Proof.
  intros F N E Hr A. unfold select_neighborhoods, list_neighborhoods.
  rewrite F. destruct neighborhoods as [|n ns]; [congruence|].
  cbn [print stdin stdout file]. rewrite E.
  match goal with
  | |- context [select_loop py (n :: ns) _ ?out] =>
      destruct (select_loop_skips py (n :: ns) (typed :: rest) rejected out Hr)
        as [out' S]
  end.
  rewrite S. cbn [select_loop]. rewrite A. eexists. repeat split.
Qed.

Lemma select_neighborhoods_all_witness :
  exists w',
    select_neighborhoods example_py
      {| stdin := ["5"; "all"; "later"]; stdout := [];
         file := Some example_store |}
    = (Returned example_store, w') /\
    stdin w' = ["later"] /\ file w' = Some example_store.
Proof.
  apply (select_neighborhoods_all example_py
           {| stdin := ["5"; "all"; "later"]; stdout := [];
              file := Some example_store |}
           example_store ["5"] "all" ["later"]).
  - reflexivity.
  - discriminate.
  - reflexivity.
  - repeat constructor.
  - reflexivity.
Defined.

Lemma print_numbered_lines : forall neighborhoods idx out,
  print_numbered idx neighborhoods out
  = out ++ map (fun numbered =>
                  Line (String.append (decimal (fst numbered))
                          (String.append ". " (saved_name (snd numbered)))))
               (combine (seq idx (length neighborhoods)) neighborhoods).
Proof.
  induction neighborhoods as [|n rest IH]; intros idx out.
  - cbn. now rewrite app_nil_r.
  - cbn [print_numbered length seq combine map fst snd].
    now rewrite IH, <- app_assoc.
Qed.

(** X18.  [list_neighborhoods] returns the entries of the file and changes
    neither the file nor the pending input; after the heading it prints one
    line per entry, in file order, numbered from 1: ["<k>. <name>"]. *)
Theorem list_neighborhoods_numbered w neighborhoods :
  file w = Some neighborhoods ->
  fst (list_neighborhoods w) = neighborhoods /\
  file (snd (list_neighborhoods w)) = file w /\
  stdin (snd (list_neighborhoods w)) = stdin w /\
  stdout (snd (list_neighborhoods w))
  = stdout w
    ++ Line (String.append nl "Available neighborhoods:")
    :: map (fun numbered =>
              Line (String.append (decimal (fst numbered))
                      (String.append ". " (saved_name (snd numbered)))))
           (combine (seq 1 (length neighborhoods)) neighborhoods).
Proof.
  intros F. unfold list_neighborhoods. rewrite F.
  cbn [fst snd file stdin stdout]. repeat split.
  now rewrite print_numbered_lines, <- app_assoc.
Qed.

Lemma list_neighborhoods_numbered_witness :
  stdout (snd (list_neighborhoods
                 {| stdin := []; stdout := []; file := Some example_store |}))
  = [ Line (String.append nl "Available neighborhoods:");
      Line "1. north"; Line "2. south" ].
Proof.
  rewrite (proj2 (proj2 (proj2 (list_neighborhoods_numbered
             {| stdin := []; stdout := []; file := Some example_store |}
             example_store eq_refl)))).
  reflexivity.
Defined.
